(** * pyTMD: compute_tidal_elevations.py

    A shallow embedding of the driver [compute_tidal_elevations.py] (model
    selection, time normalisation, masked harmonic constants, calls of the
    synthesizer and of the minor-constituent inference, fill-value policy,
    CSV output, command line) and the properties its specification states.

    Conventions.
    - [f8] values are binary64 floats: Rocq's primitive [float].
    - Python code that can raise returns a [result]; effects (calls of the
      pyTMD routines, files, standard output) are appended to a trace that
      is threaded through the monad [M].
    - The pyTMD routines, numpy's complex kernels and the operating system
      are not part of this file of the repository: they are fields of the
      record [Env], and the theorems hold whatever they are. *)

From Stdlib Require Import List String Ascii ZArith Bool Lia Floats DecimalString.
From Stdlib Require DecimalFacts DecimalPos.
Import ListNotations.

Local Open Scope string_scope.

(** [s in l] for a string and a tuple or list of strings. *)
Definition str_in (s : string) (l : list string) : bool :=
  existsb (String.eqb s) l.

(** [l.append(x)]. *)
Definition snoc {A : Type} (l : list A) (x : A) : list A := (l ++ [x])%list.

(* ================================================================== *)
(** * Python's fixed-point presentation of a float ([format(x, '0.Nf')]) *)
(* ================================================================== *)

Module PyFormat.

(** The line feed written by ['\n']. *)
Definition nl : string := String (ascii_of_nat 10) EmptyString.

(** Quotient of [num / den] rounded to the nearest integer, ties to even:
    the rounding of a correctly rounded decimal conversion. *)
Definition round_half_even (num den : Z) : Z :=
  let q := (num / den)%Z in
  let r := (num mod den)%Z in
  if (2 * r <? den)%Z then q
  else if (den <? 2 * r)%Z then (q + 1)%Z
  else if Z.even q then q else (q + 1)%Z.

Definition digits (n : Z) : string :=
  NilEmpty.string_of_uint (N.to_uint (Z.to_N n)).

Fixpoint zeros (n : nat) : string :=
  match n with
  | O => EmptyString
  | S k => String "0"%char (zeros k)
  end.

Definition pad_zeros (width : nat) (s : string) : string :=
  zeros (width - String.length s) ++ s.

(** [scaled] is the magnitude times [10 ^ prec], already rounded. *)
Definition fixed (prec : nat) (neg : bool) (scaled : Z) : string :=
  let p10 := (10 ^ Z.of_nat prec)%Z in
  (if neg then "-" else "")
    ++ digits (scaled / p10)
    ++ (match prec with
        | O => ""
        | S _ => "." ++ pad_zeros prec (digits (scaled mod p10))
        end).

(** The magnitude [m * 2 ^ e] times [10 ^ prec], rounded half to even. *)
Definition scale (prec : nat) (m : positive) (e : Z) : Z :=
  let p10 := (10 ^ Z.of_nat prec)%Z in
  if (0 <=? e)%Z then (Z.pos m * 2 ^ e * p10)%Z
  else round_half_even (Z.pos m * p10) (2 ^ (- e)).

(** [format(x, '0.<prec>f')] for a float [x] (a [numpy.float64] formats as
    the Python float it is): the zero flag without a width pads nothing. *)
Definition format_f (prec : nat) (x : float) : string :=
  match Prim2SF x with
  | S754_nan => "nan"
  | S754_infinity neg => if neg then "-inf" else "inf"
  | S754_zero neg => fixed prec neg 0
  | S754_finite neg m e => fixed prec neg (scale prec m e)
  end.

End PyFormat.

(* ================================================================== *)
(** * [os.path] on POSIX: [join], [basename], [dirname] *)
(* ================================================================== *)

Module PosixPath.

Definition sep : ascii := "/"%char.

Definition startswith_sep (s : string) : bool :=
  match s with
  | String c _ => Ascii.eqb c sep
  | EmptyString => false
  end.

Fixpoint endswith_sep (s : string) : bool :=
  match s with
  | EmptyString => false
  | String c EmptyString => Ascii.eqb c sep
  | String _ rest => endswith_sep rest
  end.

(** One step of the loop of [posixpath.join]. *)
Definition join2 (path b : string) : string :=
  if startswith_sep b then b
  else if (String.length path =? 0)%nat || endswith_sep path then path ++ b
  else path ++ String sep b.

Definition join (a : string) (p : list string) : string :=
  fold_left join2 p a.

Fixpoint contains_sep (s : string) : bool :=
  match s with
  | EmptyString => false
  | String c rest => Ascii.eqb c sep || contains_sep rest
  end.

(** [(p[:i], p[i:])] for [i = p.rfind('/') + 1]. *)
Fixpoint split_last_sep (p : string) : string * string :=
  match p with
  | EmptyString => (EmptyString, EmptyString)
  | String c rest =>
      if contains_sep rest then
        let '(head, tail) := split_last_sep rest in (String c head, tail)
      else if Ascii.eqb c sep then (String c EmptyString, rest)
      else (EmptyString, String c rest)
  end.

Definition basename (p : string) : string := snd (split_last_sep p).

Fixpoint all_sep (s : string) : bool :=
  match s with
  | EmptyString => true
  | String c rest => Ascii.eqb c sep && all_sep rest
  end.

(** [s.rstrip('/')]. *)
Fixpoint rstrip_sep (s : string) : string :=
  match s with
  | EmptyString => EmptyString
  | String c rest =>
      if all_sep (String c rest) then EmptyString
      else String c (rstrip_sep rest)
  end.

Definition dirname (p : string) : string :=
  let head := fst (split_last_sep p) in
  if negb (String.length head =? 0)%nat && negb (all_sep head)
  then rstrip_sep head else head.

End PosixPath.

(* ================================================================== *)
(** * Exceptions and results *)
(* ================================================================== *)

(** The exceptions this program meets.  [SystemExit None] is what
    [sys.exit()] raises: the interpreter then ends with status 0.
    [Raised] stands for whatever a routine outside this file raises. *)
Inductive exn : Type :=
| UnboundLocalError (name : string)
| IndexError (msg : string)
| TypeError (msg : string)
| ValueError (msg : string)
| Exception_ (msg : string)
| GetoptError (msg : string) (opt : string)
| SystemExit (code : option Z)
| Raised (who : string) (msg : string).

Inductive result (A : Type) : Type :=
| Ok (a : A)
| Raise (e : exn).

Arguments Ok {A} a.
Arguments Raise {A} e.

Definition is_ok {A : Type} (r : result A) : bool :=
  match r with
  | Ok _ => true
  | Raise _ => false
  end.

(** Sequencing of pure code that can raise. *)
Definition and_then {A B : Type} (r : result A) (f : A -> result B)
  : result B :=
  match r with
  | Ok a => f a
  | Raise e => Raise e
  end.

(* ================================================================== *)
(** * Python's [getopt.getopt] *)
(* ================================================================== *)

Module Getopt.

Definition opt_pairs : Type := list (string * string).

Definition str_of (c : ascii) : string := String c EmptyString.

(** [short_has_arg(opt, shortopts)]: the first position that holds [opt]
    (never a colon) decides, by the character after it. *)
Fixpoint short_has_arg (opt : ascii) (shortopts : string) : result bool :=
  match shortopts with
  | EmptyString =>
      Raise (GetoptError ("option -" ++ str_of opt ++ " not recognized")
               (str_of opt))
  | String c rest =>
      if Ascii.eqb opt c && negb (Ascii.eqb c ":"%char)
      then Ok (match rest with
               | String d _ => Ascii.eqb d ":"%char
               | EmptyString => false
               end)
      else short_has_arg opt rest
  end.

(** [do_shorts]: the characters of one [-xyz] argument. *)
Fixpoint do_shorts (shortopts : string) (opts : opt_pairs)
    (optstring : string) (args : list string)
  : result (opt_pairs * list string) :=
  match optstring with
  | EmptyString => Ok (opts, args)
  | String opt rest =>
      match short_has_arg opt shortopts with
      | Raise e => Raise e
      | Ok true =>
          match rest with
          | EmptyString =>
              match args with
              | [] =>
                  Raise (GetoptError
                           ("option -" ++ str_of opt ++ " requires argument")
                           (str_of opt))
              | a :: args' => Ok (snoc opts ("-" ++ str_of opt, a), args')
              end
          | _ => Ok (snoc opts ("-" ++ str_of opt, rest), args)
          end
      | Ok false =>
          do_shorts shortopts (snoc opts ("-" ++ str_of opt, "")) rest args
      end
  end.

(** [opt.index('=')]: the text before the first [=] and, when there is
    one, the text after it. *)
Fixpoint split_eq (s : string) : string * option string :=
  match s with
  | EmptyString => (EmptyString, None)
  | String c rest =>
      if Ascii.eqb c "="%char then (EmptyString, Some rest)
      else let '(a, b) := split_eq rest in (String c a, b)
  end.

(** [unique_match[:-1]] when it ends with [=]. *)
Fixpoint strip_eq (s : string) : bool * string :=
  match s with
  | EmptyString => (false, EmptyString)
  | String c EmptyString =>
      if Ascii.eqb c "="%char then (true, EmptyString)
      else (false, String c EmptyString)
  | String c rest => let '(b, r) := strip_eq rest in (b, String c r)
  end.

(** [long_has_args(opt, longopts)]: an exact name, or a unique prefix. *)
Definition long_has_args (opt : string) (longopts : list string)
  : result (bool * string) :=
  let possibilities := filter (String.prefix opt) longopts in
  match possibilities with
  | [] => Raise (GetoptError ("option --" ++ opt ++ " not recognized") opt)
  | first :: others =>
      if str_in opt possibilities then Ok (false, opt)
      else if str_in (opt ++ "=") possibilities then Ok (true, opt)
      else
        match others with
        | _ :: _ =>
            Raise (GetoptError ("option --" ++ opt ++ " not a unique prefix")
                     opt)
        | [] => Ok (strip_eq first)
        end
  end.

(** [do_longs]: one [--name] or [--name=value] argument. *)
Definition do_longs (longopts : list string) (opts : opt_pairs)
    (opt : string) (args : list string)
  : result (opt_pairs * list string) :=
  let '(name, optarg) := split_eq opt in
  match long_has_args name longopts with
  | Raise e => Raise e
  | Ok (true, full) =>
      match optarg with
      | Some v => Ok (snoc opts ("--" ++ full, v), args)
      | None =>
          match args with
          | [] =>
              Raise (GetoptError ("option --" ++ full ++ " requires argument")
                       full)
          | a :: args' => Ok (snoc opts ("--" ++ full, a), args')
          end
      end
  | Ok (false, full) =>
      match optarg with
      | Some _ =>
          Raise (GetoptError
                   ("option --" ++ full ++ " must not have an argument") full)
      | None => Ok (snoc opts ("--" ++ full, ""), args)
      end
  end.

(** The [while] loop of [getopt]: every turn consumes an argument, so
    [length args] turns are enough. *)
Fixpoint loop (fuel : nat) (shortopts : string) (longopts : list string)
    (opts : opt_pairs) (args : list string)
  : result (opt_pairs * list string) :=
  match fuel, args with
  | S fuel', a :: args' =>
      match a with
      | String "-" (String "-" EmptyString) => Ok (opts, args')
      | String "-" (String "-" name) =>
          match do_longs longopts opts name args' with
          | Raise e => Raise e
          | Ok (opts', rest) => loop fuel' shortopts longopts opts' rest
          end
      | String "-" (String c name) =>
          match do_shorts shortopts opts (String c name) args' with
          | Raise e => Raise e
          | Ok (opts', rest) => loop fuel' shortopts longopts opts' rest
          end
      | _ => Ok (opts, args)
      end
  | _, _ => Ok (opts, args)
  end.

Definition getopt (args : list string) (shortopts : string)
    (longopts : list string) : result (opt_pairs * list string) :=
  loop (List.length args) shortopts longopts [] args.

End Getopt.

(* ================================================================== *)
(** * numpy arrays, complex numbers and masked entries *)
(* ================================================================== *)

(** A numpy array of at most one dimension: [Arr0] is a 0-d array (shape
    [()]), [Arr1] a 1-d array.  The difference matters: a 0-d array can be
    neither sliced with [[:]] nor iterated. *)
Inductive ndarray (A : Type) : Type :=
| Arr0 (x : A)
| Arr1 (xs : list A).

Arguments Arr0 {A} x.
Arguments Arr1 {A} xs.

Definition nd_map {A B : Type} (f : A -> B) (a : ndarray A) : ndarray B :=
  match a with
  | Arr0 x => Arr0 (f x)
  | Arr1 xs => Arr1 (map f xs)
  end.

Definition nd_items {A : Type} (a : ndarray A) : list A :=
  match a with
  | Arr0 x => [x]
  | Arr1 xs => xs
  end.

Definition nd_size {A : Type} (a : ndarray A) : nat := List.length (nd_items a).

(** One record of the input file: the structured dtype
    [names=('MJD','lat','lon','h')], all [f8]. *)
Record row : Type := mk_row { MJD : float; lat : float; lon : float; h : float }.

(** [np.loadtxt] with the default [ndmin=0] ends with [np.squeeze]: axes
    of length one are removed, so the only record of a one-line file comes
    back as a 0-d array; no record or several give a 1-d array. *)
Definition squeeze (rows : list row) : ndarray row :=
  match rows with
  | [r] => Arr0 r
  | _ => Arr1 rows
  end.

(** [complex128]. *)
Record complex : Type := mk_complex { re : float; im : float }.

(** A real operand of a complex ufunc loop is cast to [x + 0j]. *)
Definition of_float (x : float) : complex := mk_complex x 0%float.

(** The literal [-1j] is the negation of [1j]: [complex(-0.0, -1.0)]. *)
Definition neg_j : complex := mk_complex (- 0)%float (- 1)%float.

(** [np.pi]. *)
Definition np_pi : float := 0x1.921fb54442d18p+1%float.

(** [np.finfo(float).tiny]. *)
Definition np_tiny : float := 0x1p-1022%float.

Definition isfinite (x : float) : bool :=
  negb (PrimFloat.is_nan x) && negb (PrimFloat.is_infinity x).

Definition c_isfinite (z : complex) : bool := isfinite (re z) && isfinite (im z).

(** One entry of a [numpy.ma] masked array: the underlying datum and the
    mask bit ([true] = invalid). *)
Record melem (A : Type) : Type := mk_melem { data : A; mask : bool }.

Arguments mk_melem {A} data mask.
Arguments data {A} m.
Arguments mask {A} m.

(** The harmonic constants of the extractors: amplitude and phase are two
    masked arrays of one shape, points by constituents; an entry of
    [samples] holds the amplitude entry and the phase entry of one point
    and one constituent. *)
Definition samples : Type := list (list (melem float * melem float)).

Definition hc_array : Type := list (list (melem complex)).

(* ================================================================== *)
(** * What the driver calls: pyTMD, numpy kernels, operating system *)
(* ================================================================== *)

Record Env : Type := mk_Env {
  (** the records [np.loadtxt] reads from a file, before the squeeze *)
  read_rows : string -> result (list row);
  (** complex128 multiply, true_divide, exp and absolute *)
  c_mul : complex -> complex -> complex;
  c_div : complex -> complex -> complex;
  c_exp : complex -> complex;
  c_abs : complex -> float;
  (** [extract_tidal_constants(lon, lat, grid_file, model_file, EPSG, type,
      METHOD)]: amp, ph, D, c *)
  extract_tidal_constants :
    ndarray float -> ndarray float -> string -> string -> string -> string ->
    string -> result (samples * ndarray float * list string);
  (** [extract_netcdf_constants(lon, lat, model_directory, grid_file,
      model_files, type, METHOD, SCALE)]: amp, ph, D, c *)
  extract_netcdf_constants :
    ndarray float -> ndarray float -> string -> string -> list string ->
    string -> string -> float -> result (samples * ndarray float * list string);
  (** [extract_GOT_constants(lon, lat, model_directory, model_files, METHOD,
      SCALE)]: amp, ph *)
  extract_GOT_constants :
    ndarray float -> ndarray float -> string -> list string -> string ->
    float -> result samples;
  (** [calc_delta_time(delta_file, MJD)] *)
  calc_delta_time : string -> ndarray float -> result (ndarray float);
  (** [predict_tide_drift(t, hc, c, DELTAT, CORRECTIONS)] *)
  predict_tide_drift :
    ndarray float -> hc_array -> list string -> ndarray float -> string ->
    result (ndarray float);
  (** [infer_minor_corrections(t, hc, c, DELTAT, CORRECTIONS)]: the [.data]
      of the array it returns *)
  infer_minor_corrections :
    ndarray float -> hc_array -> list string -> ndarray float -> string ->
    result (ndarray float);
  (** [os.path.expanduser], [open(path, 'w')], [os.chmod], [int(arg, 8)] *)
  expanduser : string -> string;
  open_w : string -> result unit;
  chmod : string -> Z -> result unit;
  int_base8 : string -> result Z
}.

(** What a run does to the world, in order: every call of a routine outside
    this file with its arguments and its outcome, and what is printed. *)
Inductive event : Type :=
| EvLoadtxt (input_file : string) (out : result (list row))
| EvExtractOTIS (lon lat : ndarray float)
    (grid_file model_file EPSG type METHOD : string)
    (out : result (samples * ndarray float * list string))
| EvExtractNetcdf (lon lat : ndarray float) (model_directory grid_file : string)
    (model_files : list string) (type METHOD : string) (SCALE : float)
    (out : result (samples * ndarray float * list string))
| EvExtractGOT (lon lat : ndarray float) (model_directory : string)
    (model_files : list string) (METHOD : string) (SCALE : float)
    (out : result samples)
| EvDeltaTime (delta_file : string) (mjd : ndarray float)
    (out : result (ndarray float))
| EvPredict (t : ndarray float) (hc : hc_array) (c : list string)
    (DELTAT : ndarray float) (CORRECTIONS : string)
    (out : result (ndarray float))
| EvInfer (t : ndarray float) (hc : hc_array) (c : list string)
    (DELTAT : ndarray float) (CORRECTIONS : string)
    (out : result (ndarray float))
| EvOpen (output_file : string) (out : result unit)
| EvWrite (output_file : string) (line : string)
| EvClose (output_file : string)
| EvChmod (output_file : string) (MODE : Z) (out : result unit)
| EvPrint (text : string).

(* ================================================================== *)
(** * The monad of the driver: a trace and an exception *)
(* ================================================================== *)

Definition M (A : Type) : Type := list event -> result A * list event.

Definition ret {A : Type} (a : A) : M A := fun tr => (Ok a, tr).

Definition raise {A : Type} (e : exn) : M A := fun tr => (Raise e, tr).

Definition bind {A B : Type} (m : M A) (f : A -> M B) : M B :=
  fun tr =>
    match m tr with
    | (Ok a, tr') => f a tr'
    | (Raise e, tr') => (Raise e, tr')
    end.

(** The outcome of pure code. *)
Definition lift {A : Type} (r : result A) : M A := fun tr => (r, tr).

(** A call of something outside: its outcome, logged with the call. *)
Definition call {A : Type} (ev : result A -> event) (r : result A) : M A :=
  fun tr => (r, snoc tr (ev r)).

Definition emit (ev : event) : M unit := fun tr => (Ok tt, snoc tr ev).

(** Reading a local variable that no branch has bound. *)
Definition local {A : Type} (name : string) (v : option A) : M A :=
  match v with
  | Some a => ret a
  | None => raise (UnboundLocalError name)
  end.

Declare Scope py_scope.
Delimit Scope py_scope with py.
Notation "x <- m ;; k" := (bind m (fun x => k))
  (at level 61, m at next level, right associativity) : py_scope.
Notation "' p <- m ;; k" := (bind m (fun p => k))
  (at level 61, p pattern, m at next level, right associativity) : py_scope.
Notation "m ;;; k" := (bind m (fun _ => k))
  (at level 61, right associativity) : py_scope.
Notation "x <~ r ;; k" := (and_then r (fun x => k))
  (at level 61, r at next level, right associativity) : py_scope.

(** A computation that never reads the trace: it only appends to it. *)
Definition appends {A : Type} (m : M A) : Prop :=
  forall tr, m tr = (fst (m []), (tr ++ snd (m []))%list).

(* ================================================================== *)
(** * The catalogue of tide models (the [if]/[elif] chain) *)
(* ================================================================== *)

(** The local variables the chain may bind.  A branch binds only what its
    model needs; a model outside the catalogue binds none. *)
Record locals : Type := mk_locals {
  grid_file : option string;
  model_file : option string;
  model_directory : option string;
  model_files : option (list string);
  c : option (list string);
  reference : option string;
  model_format : option string;
  EPSG : option string;
  type : option string;
  SCALE : option float
}.

Definition unbound : locals :=
  mk_locals None None None None None None None None None None.

(** A branch of an OTIS or ATLAS model. *)
Definition gridded (grid model ref fmt epsg : string) : locals :=
  mk_locals (Some grid) (Some model) None None None (Some ref) (Some fmt)
    (Some epsg) (Some "z") None.

(** A branch of a GOT model. *)
Definition got (directory : string) (files : list string) (scale : float)
  : locals :=
  mk_locals None None (Some directory) (Some files)
    (Some ["q1";"o1";"p1";"k1";"n2";"m2";"s2";"k2";"s1";"m4"])
    (Some ("https://denali.gsfc.nasa.gov/personal_pages/ray/"
             ++ "MiscPubs/19990089548_1999150788.pdf"))
    (Some "GOT") None None (Some scale).

Definition got_ocean_files : list string :=
  ["q1.d.gz";"o1.d.gz";"p1.d.gz";"k1.d.gz";"n2.d.gz";
   "m2.d.gz";"s2.d.gz";"k2.d.gz";"s1.d.gz";"m4.d.gz"].

Definition got_load_files : list string :=
  ["q1load.d.gz";"o1load.d.gz";"p1load.d.gz";"k1load.d.gz";
   "n2load.d.gz";"m2load.d.gz";"s2load.d.gz";"k2load.d.gz";
   "s1load.d.gz";"m4load.d.gz"].

Definition esr (page : string) : string :=
  "https://www.esr.org/research/polar-tide-models/"
    ++ "list-of-polar-tide-models/" ++ page.

Definition select_model (tide_dir TIDE_MODEL : string) : locals :=
  let path := PosixPath.join tide_dir in
  if TIDE_MODEL =? "CATS0201" then
    gridded (path ["cats0201_tmd";"grid_CATS"])
      (path ["cats0201_tmd";"h0_CATS02_01"])
      "https://mail.esr.org/polar_tide_models/Model_CATS0201.html"
      "OTIS" "4326"
  else if TIDE_MODEL =? "CATS2008" then
    gridded (path ["CATS2008";"grid_CATS2008a_opt"])
      (path ["CATS2008";"hf.CATS2008.out"])
      (esr "cats2008/") "OTIS" "CATS2008"
  else if TIDE_MODEL =? "CATS2008_load" then
    gridded (path ["CATS2008a_SPOTL_Load";"grid_CATS2008a_opt"])
      (path ["CATS2008a_SPOTL_Load";"h_CATS2008a_SPOTL_load"])
      (esr "cats2008/") "OTIS" "CATS2008"
  else if TIDE_MODEL =? "TPXO9-atlas" then
    mk_locals (Some "grid_tpxo9_atlas.nc.gz") None
      (Some (path ["TPXO9_atlas"]))
      (Some ["h_q1_tpxo9_atlas_30.nc.gz";"h_o1_tpxo9_atlas_30.nc.gz";
             "h_p1_tpxo9_atlas_30.nc.gz";"h_k1_tpxo9_atlas_30.nc.gz";
             "h_n2_tpxo9_atlas_30.nc.gz";"h_m2_tpxo9_atlas_30.nc.gz";
             "h_s2_tpxo9_atlas_30.nc.gz";"h_k2_tpxo9_atlas_30.nc.gz";
             "h_m4_tpxo9_atlas_30.nc.gz";"h_ms4_tpxo9_atlas_30.nc.gz";
             "h_mn4_tpxo9_atlas_30.nc.gz";"h_2n2_tpxo9_atlas_30.nc.gz"])
      None (Some "http://volkov.oce.orst.edu/tides/tpxo9_atlas.html")
      (Some "netcdf") None (Some "z") (Some (1 / 1000)%float)
  else if TIDE_MODEL =? "TPXO9.1" then
    gridded (path ["TPXO9.1";"DATA";"grid_tpxo9"])
      (path ["TPXO9.1";"DATA";"h_tpxo9.v1"])
      "http://volkov.oce.orst.edu/tides/global.html" "OTIS" "4326"
  else if TIDE_MODEL =? "TPXO8-atlas" then
    gridded (path ["tpxo8_atlas";"grid_tpxo8atlas_30_v1"])
      (path ["tpxo8_atlas";"hf.tpxo8_atlas_30_v1"])
      "http://volkov.oce.orst.edu/tides/tpxo8_atlas.html" "ATLAS" "4326"
  else if TIDE_MODEL =? "TPXO7.2" then
    gridded (path ["TPXO7.2_tmd";"grid_tpxo7.2"])
      (path ["TPXO7.2_tmd";"h_tpxo7.2"])
      "http://volkov.oce.orst.edu/tides/global.html" "OTIS" "4326"
  else if TIDE_MODEL =? "TPXO7.2_load" then
    gridded (path ["TPXO7.2_load";"grid_tpxo6.2"])
      (path ["TPXO7.2_load";"h_tpxo7.2_load"])
      "http://volkov.oce.orst.edu/tides/global.html" "OTIS" "4326"
  else if TIDE_MODEL =? "AODTM-5" then
    gridded (path ["aodtm5_tmd";"grid_Arc5km"])
      (path ["aodtm5_tmd";"h0_Arc5km.oce"])
      (esr "aodtm-5/") "OTIS" "PSNorth"
  else if TIDE_MODEL =? "AOTIM-5" then
    gridded (path ["aotim5_tmd";"grid_Arc5km"])
      (path ["aotim5_tmd";"h_Arc5km.oce"])
      (esr "aotim-5/") "OTIS" "PSNorth"
  else if TIDE_MODEL =? "AOTIM-5-2018" then
    gridded (path ["Arc5km2018";"grid_Arc5km2018"])
      (path ["Arc5km2018";"h_Arc5km2018"])
      (esr "aotim-5/") "OTIS" "PSNorth"
  else if TIDE_MODEL =? "GOT4.7" then
    got (path ["GOT4.7";"grids_oceantide"]) got_ocean_files (1 / 100)%float
  else if TIDE_MODEL =? "GOT4.7_load" then
    got (path ["GOT4.7";"grids_loadtide"]) got_load_files (1 / 1000)%float
  else if TIDE_MODEL =? "GOT4.8" then
    got (path ["got4.8";"grids_oceantide"]) got_ocean_files (1 / 100)%float
  else if TIDE_MODEL =? "GOT4.8_load" then
    got (path ["got4.8";"grids_loadtide"]) got_load_files (1 / 1000)%float
  else if TIDE_MODEL =? "GOT4.10" then
    got (path ["GOT4.10c";"grids_oceantide"]) got_ocean_files (1 / 100)%float
  else if TIDE_MODEL =? "GOT4.10_load" then
    got (path ["GOT4.10c";"grids_loadtide"]) got_load_files (1 / 1000)%float
  else unbound.

(** The identifiers of the catalogue, in the order of the chain. *)
Definition catalogue : list string :=
  ["CATS0201";"CATS2008";"CATS2008_load";"TPXO9-atlas";"TPXO9.1";
   "TPXO8-atlas";"TPXO7.2";"TPXO7.2_load";"AODTM-5";"AOTIM-5";
   "AOTIM-5-2018";"GOT4.7";"GOT4.7_load";"GOT4.8";"GOT4.8_load";
   "GOT4.10";"GOT4.10_load"].

(* ================================================================== *)
(** * The driver *)
(* ================================================================== *)

Section Driver.

Variable E : Env.

Local Open Scope py_scope.

(** ** Masked arithmetic ([numpy.ma]) on one entry *)

(** A plain operand has no masked entry. *)
Definition plain (z : complex) : melem complex := mk_melem z false.

(** A float array met by a complex operand is cast to complex. *)
Definition to_complex (a : melem float) : melem complex :=
  mk_melem (of_float (data a)) (mask a).

(** [numpy.ma.multiply]: the mask is the union of the operands' masks and
    a masked entry keeps the datum of the first operand. *)
Definition ma_multiply (a b : melem complex) : melem complex :=
  let m := mask a || mask b in
  mk_melem (if m then data a else c_mul E (data a) (data b)) m.

(** The domain of [numpy.ma.true_divide]:
    [absolute(a) * tolerance >= absolute(b)], [tolerance] being [tiny]. *)
Definition safe_divide_domain (a b : complex) : bool :=
  (c_abs E b <=? c_abs E a * np_tiny)%float.

(** [numpy.ma.true_divide]: besides the operands' masks, an entry whose
    quotient is not finite or that falls in the domain is masked; a masked
    entry keeps the datum of the first operand. *)
Definition ma_true_divide (a b : melem complex) : melem complex :=
  let q := c_div E (data a) (data b) in
  let m := negb (c_isfinite q) || safe_divide_domain (data a) (data b)
           || mask a || mask b in
  mk_melem (if m then data a else q) m.

(** [np.exp] of a masked array: the mask is kept. *)
Definition ma_exp (a : melem complex) : melem complex :=
  mk_melem (c_exp E (data a)) (mask a).

(** [cph = -1j*ph*np.pi/180.0] *)
Definition cph (ph : melem float) : melem complex :=
  ma_true_divide
    (ma_multiply (ma_multiply (plain neg_j) (to_complex ph))
       (plain (of_float np_pi)))
    (plain (of_float 180%float)).

(** [hc = amp*np.exp(cph)] *)
Definition hc_entry (amp ph : melem float) : melem complex :=
  ma_multiply (to_complex amp) (ma_exp (cph ph)).

Definition hc_of (amp_ph : samples) : hc_array :=
  map (map (fun s => hc_entry (fst s) (snd s))) amp_ph.

(** [np.any(hc.mask, axis=1)] *)
Definition any_axis1 (hc : hc_array) : list bool :=
  map (existsb mask) hc.

(** ** The masked array [tide] *)

Definition fill_value : float := (- 9999)%float.

(** [np.ma.empty_like(a)] and [np.ma.empty_like(a, fill_value=x)].
    [numpy.ma] makes [empty_like] from [np.empty_like] by a wrapper that
    is given no parameter of its own ([ma.empty], [ma.zeros] and [ma.ones]
    are made with [fill_value] and [hardmask]): what the caller passes
    goes on to [np.empty_like] as it is, and [np.empty_like] has no
    parameter [fill_value], so that the call with the keyword raises
    [TypeError] (the text of the message varies with the release).
    Without the keyword the result has the shape of [a], no entry masked
    and data that are not initialised. *)
Definition empty_like (a : ndarray float) (fill_value : option float)
  : result (ndarray (melem float)) :=
  match fill_value with
  | Some _ =>
      Raise (TypeError
               "empty_like() got an unexpected keyword argument 'fill_value'")
  | None => Ok (nd_map (fun _ => mk_melem 0%float false) a)
  end.

Fixpoint set_masks (src : list bool) (i : nat) (es : list (melem float))
  : list (melem float) :=
  match es with
  | [] => []
  | e :: es' =>
      mk_melem (data e) (nth (i mod List.length src) src false)
        :: set_masks src (S i) es'
  end.

(** [tide.mask = src]: the mask setter writes through [mask.flat], which
    takes the values of [src] in order, again from the start when [src] is
    the shorter, and does nothing when [src] is empty.  With one value per
    point this is the plain assignment. *)
Definition set_mask (src : list bool) (t : ndarray (melem float))
  : ndarray (melem float) :=
  match src with
  | [] => t
  | _ :: _ =>
      match t with
      | Arr0 e => Arr0 (mk_melem (data e) (nth 0 src false))
      | Arr1 es => Arr1 (set_masks src 0 es)
      end
  end.

(** [a[:]]: a 0-d array has no axis to slice. *)
Definition slice_all {A : Type} (a : ndarray A) : result (list A) :=
  match a with
  | Arr0 _ => Raise (IndexError "too many indices for array")
  | Arr1 xs => Ok xs
  end.

(** The right-hand side of an assignment to [n] entries: as many values,
    or a single one for all. *)
Definition broadcast_to (n : nat) (src : ndarray float)
  : result (list float) :=
  match src with
  | Arr0 x => Ok (repeat x n)
  | Arr1 xs =>
      if (List.length xs =? n)%nat then Ok xs
      else
        match xs with
        | [x] => Ok (repeat x n)
        | _ => Raise (ValueError "could not broadcast input array")
        end
  end.

(** [tide.data[:] = values] *)
Definition assign_data (t : ndarray (melem float)) (values : ndarray float)
  : result (ndarray (melem float)) :=
  es <~ slice_all t ;;
  vs <~ broadcast_to (List.length es) values ;;
  Ok (Arr1 (map (fun ev => mk_melem (snd ev) (mask (fst ev)))
              (combine es vs))).

(** [tide.data[:] += minor.data[:]] *)
Definition iadd_data (t : ndarray (melem float)) (minor : ndarray float)
  : result (ndarray (melem float)) :=
  es <~ slice_all t ;;
  ms <~ slice_all minor ;;
  vs <~ broadcast_to (List.length es) (Arr1 ms) ;;
  Ok (Arr1 (map (fun ev => mk_melem (data (fst ev) + snd ev)%float
                             (mask (fst ev)))
              (combine es vs))).

(** The mask bit that [tide.mask = np.any(hc.mask,axis=1)] gives point [i]
    ([i mod 0] is [i], and past the end of the list the bit is unset). *)
Definition point_mask (hc : hc_array) (i : nat) : bool :=
  nth (i mod List.length (any_axis1 hc)) (any_axis1 hc) false.

(** An entry of [tide] after line 272, from its mask bit, the elevation of
    the synthesizer and the minor correction. *)
Definition entry (m : bool) (elevation minor : float) : melem float :=
  mk_melem (if m then fill_value else (elevation + minor)%float) m.

(** [tide.data[tide.mask] = tide.fill_value] *)
Definition fill_masked (t : ndarray (melem float)) : ndarray (melem float) :=
  nd_map (fun e => if mask e then mk_melem fill_value true else e) t.

(** Iterating a 1-d masked array goes through [MaskedArray.__getitem__]:
    it yields, entry by entry, the datum, or the constant [numpy.ma.masked]
    ([None] here) where the mask bit is set. *)
Definition ma_item (e : melem float) : option float :=
  if mask e then None else Some (data e).

(** [iter(a)], as [zip] calls it on each argument. *)
Definition iter {A : Type} (a : ndarray A) : result (list A) :=
  match a with
  | Arr0 _ => Raise (TypeError "iteration over a 0-d array")
  | Arr1 xs => Ok xs
  end.

(** ** Output *)

(** [format(td, '0.2f')] for an item of [tide].  The constant
    [numpy.ma.masked] ignores the presentation it is given and formats as
    its [str], two dashes (numpy 1.19 and later, with a [FutureWarning];
    the releases 1.14 to 1.18 raise [TypeError] there instead).  The datum
    under the mask is never what is formatted. *)
Definition format_item (td : option float) : string :=
  match td with
  | Some x => PyFormat.format_f 2 x
  | None => "--"
  end.

(** ['{0:0.6f},{1:0.2f},{2:0.2f},{3:0.2f}\n'.format(d,lt,ln,td)] *)
Definition format_line (d lt ln : float) (td : option float) : string :=
  PyFormat.format_f 6 d ++ "," ++ PyFormat.format_f 2 lt ++ ","
    ++ PyFormat.format_f 2 ln ++ "," ++ format_item td ++ PyFormat.nl.

(** [zip(a, b, c, d)] stops with its shortest argument. *)
Fixpoint zip4 {A B C D : Type} (la : list A) (lb : list B) (lc : list C)
    (ld : list D) : list (A * B * C * D) :=
  match la, lb, lc, ld with
  | a :: la', b :: lb', c :: lc', d :: ld' =>
      (a, b, c, d) :: zip4 la' lb' lc' ld'
  | _, _, _, _ => []
  end.

(** [zip(dinput['MJD'],dinput['lat'],dinput['lon'],tide)] *)
Definition zipped (dinput : ndarray row) (tide : ndarray (melem float))
  : result (list (float * float * float * option float)) :=
  ds <~ iter (nd_map MJD dinput) ;;
  lts <~ iter (nd_map lat dinput) ;;
  lns <~ iter (nd_map lon dinput) ;;
  tds <~ iter (nd_map ma_item tide) ;;
  Ok (zip4 ds lts lns tds).

(** The line of one item of the [zip]. *)
Definition line_of (i : float * float * float * option float) : string :=
  let '(d, lt, ln, td) := i in format_line d lt ln td.

(** The loop of line 276. *)
Fixpoint write_lines (output_file : string)
    (items : list (float * float * float * option float)) : M unit :=
  match items with
  | [] => ret tt
  | i :: items' =>
      emit (EvWrite output_file (line_of i)) ;;;
      write_lines output_file items'
  end.

(** [with open(output_file,'w') as f: body]: the file is closed however
    the body ends. *)
Definition with_open (output_file : string) (body : M unit) : M unit :=
  call (EvOpen output_file) (open_w E output_file) ;;;
  (fun tr => let '(r, tr') := body tr in (r, snoc tr' (EvClose output_file))).

(** ** [compute_tidal_elevations] *)

(** [np.zeros_like(a)] *)
Definition zeros_like (a : ndarray float) : ndarray float :=
  nd_map (fun _ => 0%float) a.

(** What lines 241-254 leave bound: [amp] and [ph], [c], [deltat]. *)
Definition constants : Type :=
  (option samples * option (list string) * option (ndarray float))%type.

(** Lines 241-254: read the harmonic constants, set the delta time. *)
Definition read_constants (tide_dir : string) (dinput : ndarray row)
    (L : locals) (fmt : string) : M constants :=
  if str_in fmt ["OTIS";"ATLAS"] then
    grid <- local "grid_file" (grid_file L) ;;
    model <- local "model_file" (model_file L) ;;
    epsg <- local "EPSG" (EPSG L) ;;
    ty <- local "type" (type L) ;;
    r <- call (EvExtractOTIS (nd_map lon dinput) (nd_map lat dinput)
                 grid model epsg ty "spline")
           (extract_tidal_constants E (nd_map lon dinput) (nd_map lat dinput)
              grid model epsg ty "spline") ;;
    ret (Some (fst (fst r)), Some (snd r),
         Some (zeros_like (nd_map MJD dinput)))
  else if fmt =? "netcdf" then
    directory <- local "model_directory" (model_directory L) ;;
    grid <- local "grid_file" (grid_file L) ;;
    files <- local "model_files" (model_files L) ;;
    ty <- local "type" (type L) ;;
    scale <- local "SCALE" (SCALE L) ;;
    r <- call (EvExtractNetcdf (nd_map lon dinput) (nd_map lat dinput)
                 directory grid files ty "spline" scale)
           (extract_netcdf_constants E (nd_map lon dinput)
              (nd_map lat dinput) directory grid files ty "spline" scale) ;;
    ret (Some (fst (fst r)), Some (snd r),
         Some (zeros_like (nd_map MJD dinput)))
  else if fmt =? "GOT" then
    directory <- local "model_directory" (model_directory L) ;;
    files <- local "model_files" (model_files L) ;;
    scale <- local "SCALE" (SCALE L) ;;
    amp_ph <- call (EvExtractGOT (nd_map lon dinput) (nd_map lat dinput)
                      directory files "spline" scale)
                (extract_GOT_constants E (nd_map lon dinput)
                   (nd_map lat dinput) directory files "spline" scale) ;;
    let delta_file := PosixPath.join tide_dir ["deltat.data"] in
    deltat <- call (EvDeltaTime delta_file (nd_map MJD dinput))
                (calc_delta_time E delta_file (nd_map MJD dinput)) ;;
    ret (Some amp_ph, c L, Some deltat)
  else ret (None, c L, None).

(** Lines 256-272: the harmonic constants, the prediction, the minor
    constituents, the fill value.  The result is [tide]. *)
Definition predict_tide (dinput : ndarray row) (fmt : string) (k : constants)
  : M (ndarray (melem float)) :=
  let '(amp_ph, c_, deltat_) := k in
  amp_ph <- local "ph" amp_ph ;;
  let hc := hc_of amp_ph in
  tide <- lift (empty_like (nd_map MJD dinput) (Some fill_value)) ;;
  let tide := set_mask (any_axis1 hc) tide in
  c <- local "c" c_ ;;
  deltat <- local "deltat" deltat_ ;;
  let t := nd_map (fun d => (d - 48622)%float) (nd_map MJD dinput) in
  elevations <- call (EvPredict t hc c deltat fmt)
                  (predict_tide_drift E t hc c deltat fmt) ;;
  tide <- lift (assign_data tide elevations) ;;
  let t := nd_map (fun d => (d - 48622)%float) (nd_map MJD dinput) in
  minor <- call (EvInfer t hc c deltat fmt)
             (infer_minor_corrections E t hc c deltat fmt) ;;
  tide <- lift (iadd_data tide minor) ;;
  ret (fill_masked tide).

(** Lines 274-279: one line per item of the [zip], then the mode. *)
Definition write_output (dinput : ndarray row) (tide : ndarray (melem float))
    (output_file : string) (MODE : Z) : M unit :=
  with_open output_file
    (items <- lift (zipped dinput tide) ;;
     write_lines output_file items) ;;;
  call (EvChmod output_file MODE) (chmod E output_file MODE).

Definition compute_tidal_elevations (tide_dir input_file output_file : string)
    (TIDE_MODEL : string) (MODE : Z) : M unit :=
  rows <- call (EvLoadtxt input_file) (read_rows E input_file) ;;
  let dinput := squeeze rows in
  let L := select_model tide_dir TIDE_MODEL in
  fmt <- local "model_format" (model_format L) ;;
  k <- read_constants tide_dir dinput L fmt ;;
  tide <- predict_tide dinput fmt k ;;
  write_output dinput tide output_file MODE.

(** ** The command line *)

(** [sys.argv[i]] *)
Definition argv_at (argv : list string) (i : nat) : M string :=
  match nth_error argv i with
  | Some a => ret a
  | None => raise (IndexError "list index out of range")
  end.

Definition tab : string := String (ascii_of_nat 9) EmptyString.

(** [usage()]: four calls of [print]. *)
Definition usage (argv : list string) : M unit :=
  prog <- argv_at argv 0 ;;
  emit (EvPrint (PyFormat.nl ++ "Help: " ++ PosixPath.basename prog)) ;;;
  emit (EvPrint (" -D X, --directory=X" ++ tab ++ "Working data directory")) ;;;
  emit (EvPrint (" -T X, --tide=X" ++ tab ++ tab
                   ++ "Tide model to use in correction")) ;;;
  emit (EvPrint (" -M X, --mode=X" ++ tab ++ tab
                   ++ "Permission mode of output file" ++ PyFormat.nl)).

(** The settings the options change: [tide_dir], [TIDE_MODEL], [MODE]. *)
Definition settings : Type := (option string * string * Z)%type.

(** The body of the loop over [optlist]. *)
Definition option_step (argv : list string) (s : settings)
    (oa : string * string) : M settings :=
  let '(tide_dir, TIDE_MODEL, MODE) := s in
  let '(opt, arg) := oa in
  if str_in opt ["-h";"--help"] then
    usage argv ;;; raise (SystemExit None)
  else if str_in opt ["-D";"--directory"] then
    ret (Some (expanduser E arg), TIDE_MODEL, MODE)
  else if str_in opt ["-T";"--tide"] then
    ret (tide_dir, arg, MODE)
  else if str_in opt ["-M";"--mode"] then
    mode <- lift (int_base8 E arg) ;;
    ret (tide_dir, TIDE_MODEL, mode)
  else ret s.

Fixpoint option_loop (argv : list string) (s : settings)
    (optlist : Getopt.opt_pairs) : M settings :=
  match optlist with
  | [] => ret s
  | oa :: optlist' =>
      s' <- option_step argv s oa ;;
      option_loop argv s' optlist'
  end.

(** [list[i]] *)
Definition item (l : list string) (i : nat) : M string :=
  match nth_error l i with
  | Some a => ret a
  | None => raise (IndexError "list index out of range")
  end.

Definition main (argv : list string) : M unit :=
  let long_options := ["help";"directory=";"tide=";"mode="] in
  '(optlist, arglist) <-
    lift (Getopt.getopt (tl argv) "hD:T:M:" long_options) ;;
  s <- option_loop argv (None, "CATS2008", 509%Z) optlist ;;
  let '(tide_dir, TIDE_MODEL, MODE) := s in
  match arglist with
  | [] => raise (Exception_ "No System Arguments Listed")
  | _ :: _ =>
      a0 <- item arglist 0 ;;
      let input_file := expanduser E a0 in
      a1 <- item arglist 1 ;;
      let output_file := expanduser E a1 in
      let tide_dir :=
        match tide_dir with
        | None => PosixPath.dirname input_file
        | Some d => d
        end in
      compute_tidal_elevations tide_dir input_file output_file TIDE_MODEL MODE
  end.

End Driver.

(* ================================================================== *)
(** * Reading a trace *)
(* ================================================================== *)

(** The arguments of a call of the synthesizer or of the inference. *)
Record synthesis_args : Type := mk_args {
  arg_t : ndarray float;
  arg_hc : hc_array;
  arg_c : list string;
  arg_DELTAT : ndarray float;
  arg_CORRECTIONS : string
}.

Fixpoint omap {A B : Type} (f : A -> option B) (l : list A) : list B :=
  match l with
  | [] => []
  | x :: l' =>
      match f x with
      | Some y => y :: omap f l'
      | None => omap f l'
      end
  end.

(** The calls of [predict_tide_drift], in order. *)
Definition predict_calls (tr : list event) : list synthesis_args :=
  omap (fun ev => match ev with
                  | EvPredict t hc c d f _ => Some (mk_args t hc c d f)
                  | _ => None
                  end) tr.

(** The calls of [infer_minor_corrections], in order. *)
Definition infer_calls (tr : list event) : list synthesis_args :=
  omap (fun ev => match ev with
                  | EvInfer t hc c d f _ => Some (mk_args t hc c d f)
                  | _ => None
                  end) tr.

(** The calls of [calc_delta_time]: file and times. *)
Definition delta_time_calls (tr : list event) : list (string * ndarray float) :=
  omap (fun ev => match ev with
                  | EvDeltaTime f mjd _ => Some (f, mjd)
                  | _ => None
                  end) tr.

(** The harmonic constants an extractor has returned. *)
Definition extracted (tr : list event) : list samples :=
  omap (fun ev => match ev with
                  | EvExtractOTIS _ _ _ _ _ _ _ (Ok r) => Some (fst (fst r))
                  | EvExtractNetcdf _ _ _ _ _ _ _ _ (Ok r) => Some (fst (fst r))
                  | EvExtractGOT _ _ _ _ _ _ (Ok amp_ph) => Some amp_ph
                  | _ => None
                  end) tr.

(** The lines written to a file, in order. *)
Definition written (output_file : string) (tr : list event) : list string :=
  omap (fun ev => match ev with
                  | EvWrite f line =>
                      if f =? output_file then Some line else None
                  | _ => None
                  end) tr.

(** Does the event open, write, close or change a file? *)
Definition file_event (ev : event) : bool :=
  match ev with
  | EvOpen _ _ | EvWrite _ _ | EvClose _ | EvChmod _ _ _ => true
  | _ => false
  end.

(** Does the event belong to the prediction pipeline (anything but a
    [print])? *)
Definition pipeline_event (ev : event) : bool :=
  match ev with
  | EvPrint _ => false
  | _ => true
  end.

(** The usage error of [main]. *)
Definition usage_error : exn := Exception_ "No System Arguments Listed".

Definition is_usage_error {A : Type} (r : result A) : bool :=
  match r with
  | Raise (Exception_ msg) => msg =? "No System Arguments Listed"
  | _ => false
  end.

(** Is [-h] or [--help] among the options? *)
Definition has_help (optlist : Getopt.opt_pairs) : bool :=
  existsb (fun oa => str_in (fst oa) ["-h";"--help"]) optlist.

(** Does [int(arg, 8)] succeed for the argument of every mode option? *)
Definition modes_parse (E : Env) (optlist : Getopt.opt_pairs) : bool :=
  forallb (fun oa => if str_in (fst oa) ["-M";"--mode"]
                     then is_ok (int_base8 E (snd oa)) else true) optlist.

(** The options of [main] as [getopt] reads them. *)
Definition parse_argv (argv : list string)
  : result (Getopt.opt_pairs * list string) :=
  Getopt.getopt (tl argv) "hD:T:M:" ["help";"directory=";"tide=";"mode="].

(** The formats whose extraction needs no delta time. *)
Definition no_delta_time (fmt : string) : bool :=
  str_in fmt ["OTIS";"ATLAS";"netcdf"].

(** An input file seen through its first three columns. *)
Definition forget_h (r : row) : float * float * float := (MJD r, lat r, lon r).

(** The same environment with other records in the input files. *)
Definition with_rows (E : Env) (rows : string -> result (list row)) : Env :=
  mk_Env rows (c_mul E) (c_div E) (c_exp E) (c_abs E)
    (extract_tidal_constants E) (extract_netcdf_constants E)
    (extract_GOT_constants E) (calc_delta_time E) (predict_tide_drift E)
    (infer_minor_corrections E) (expanduser E) (open_w E) (chmod E)
    (int_base8 E).

(* ================================================================== *)
(** * A small world to run the driver in *)
(* ================================================================== *)

(** Inputs of one, two and no record, a model of one constituent (amplitude
    1.25, phase 0) that covers the points south of 70.5 degrees, and
    kernels that compute with floats; the exponential is cut after its
    linear term, which is exact at the phase 0 of this model.  It serves to
    evaluate the driver on concrete command lines. *)
Module Toy.

Definition two_rows : list row :=
  [mk_row 58000 70 (- 40) 0; mk_row 58000.5 71 (- 41) 12.5]%float.

Definition one_row : list row := [mk_row 58000 70 (- 40) 0]%float.

Definition read_rows (f : string) : result (list row) :=
  if f =? "two.csv" then Ok two_rows
  else if f =? "one.csv" then Ok one_row
  else if f =? "none.csv" then Ok []
  else Raise (Raised "loadtxt" "file not found").

Definition c_mul (a b : complex) : complex :=
  mk_complex (re a * re b - im a * im b)%float
    (re a * im b + im a * re b)%float.

Definition c_div (a b : complex) : complex :=
  let d := (re b * re b + im b * im b)%float in
  mk_complex ((re a * re b + im a * im b) / d)%float
    ((im a * re b - re a * im b) / d)%float.

Definition c_exp (z : complex) : complex :=
  mk_complex (1 + re z)%float (im z).

Definition c_abs (z : complex) : float :=
  PrimFloat.sqrt (re z * re z + im z * im z)%float.

Definition sample_at (lt : float) : melem float * melem float :=
  (mk_melem 1.25%float (70.5 <? lt)%float,
   mk_melem 0%float (70.5 <? lt)%float).

Definition extract (lat : ndarray float) : samples :=
  map (fun lt => [sample_at lt]) (nd_items lat).

Definition extract_tidal_constants (lon lat : ndarray float)
    (grid_file model_file EPSG type METHOD : string)
  : result (samples * ndarray float * list string) :=
  Ok (extract lat, zeros_like lat, ["m2"]).

Definition extract_netcdf_constants (lon lat : ndarray float)
    (model_directory grid_file : string) (model_files : list string)
    (type METHOD : string) (SCALE : float)
  : result (samples * ndarray float * list string) :=
  Ok (extract lat, zeros_like lat, ["m2"]).

Definition extract_GOT_constants (lon lat : ndarray float)
    (model_directory : string) (model_files : list string) (METHOD : string)
    (SCALE : float) : result samples :=
  Ok (extract lat).

Definition calc_delta_time (delta_file : string) (mjd : ndarray float)
  : result (ndarray float) :=
  Ok (nd_map (fun _ => 0.0009765625%float) mjd).

Definition sum_re (entries : list (melem complex)) : float :=
  fold_left (fun acc e => (acc + re (data e))%float) entries 0%float.

Definition predict_tide_drift (t : ndarray float) (hc : hc_array)
    (c : list string) (DELTAT : ndarray float) (CORRECTIONS : string)
  : result (ndarray float) :=
  Ok (Arr1 (map sum_re hc)).

Definition infer_minor_corrections (t : ndarray float) (hc : hc_array)
    (c : list string) (DELTAT : ndarray float) (CORRECTIONS : string)
  : result (ndarray float) :=
  Ok (Arr1 (map (fun _ => 0.25%float) hc)).

Fixpoint octal (acc : Z) (s : string) : option Z :=
  match s with
  | EmptyString => Some acc
  | String d rest =>
      let v := (Z.of_nat (nat_of_ascii d) - 48)%Z in
      if ((0 <=? v) && (v <? 8))%Z then octal (8 * acc + v)%Z rest else None
  end.

Definition int_base8 (s : string) : result Z :=
  match s with
  | EmptyString => Raise (ValueError "invalid literal for int() with base 8")
  | _ =>
      match octal 0 s with
      | Some v => Ok v
      | None => Raise (ValueError "invalid literal for int() with base 8")
      end
  end.

Definition env : Env :=
  mk_Env read_rows c_mul c_div c_exp c_abs extract_tidal_constants
    extract_netcdf_constants extract_GOT_constants calc_delta_time
    predict_tide_drift infer_minor_corrections (fun path => path)
    (fun _ => Ok tt) (fun _ _ => Ok tt) int_base8.

End Toy.

(* ================================================================== *)
(** * Further readings of a run and of a command line *)
(* ================================================================== *)

(** The exception of a call that failed. *)
Definition failed_call (ev : event) : option exn :=
  match ev with
  | EvLoadtxt _ (Raise e)
  | EvExtractOTIS _ _ _ _ _ _ _ (Raise e)
  | EvExtractNetcdf _ _ _ _ _ _ _ _ (Raise e)
  | EvExtractGOT _ _ _ _ _ _ (Raise e)
  | EvDeltaTime _ _ (Raise e)
  | EvPredict _ _ _ _ _ (Raise e)
  | EvInfer _ _ _ _ _ (Raise e)
  | EvOpen _ (Raise e)
  | EvChmod _ _ (Raise e) => Some e
  | _ => None
  end.

(** The calls of the extractors, in order: the routine, the longitudes,
    the latitudes and the interpolation method. *)
Definition extract_calls (tr : list event)
  : list (string * ndarray float * ndarray float * string) :=
  omap (fun ev =>
          match ev with
          | EvExtractOTIS lon lat _ _ _ _ METHOD _ =>
              Some ("extract_tidal_constants", lon, lat, METHOD)
          | EvExtractNetcdf lon lat _ _ _ _ METHOD _ _ =>
              Some ("extract_netcdf_constants", lon, lat, METHOD)
          | EvExtractGOT lon lat _ _ METHOD _ _ =>
              Some ("extract_GOT_constants", lon, lat, METHOD)
          | _ => None
          end) tr.

(** The extractor that lines 241-254 call for a format. *)
Definition extractor_of (fmt : string) : string :=
  if str_in fmt ["OTIS";"ATLAS"] then "extract_tidal_constants"
  else if fmt =? "netcdf" then "extract_netcdf_constants"
  else "extract_GOT_constants".

(** Does [getopt] read the argument as an option?  Its loop goes on while
    [args[0].startswith('-') and args[0] != '-']. *)
Definition is_option (a : string) : bool :=
  match a with
  | String "-" (String _ _) => true
  | _ => false
  end.

(** The argument of the last option of [optlist] whose name is in
    [names], if there is one. *)
Fixpoint last_option (names : list string) (optlist : Getopt.opt_pairs)
  : option string :=
  match optlist with
  | [] => None
  | (opt, arg) :: optlist' =>
      match last_option names optlist' with
      | Some v => Some v
      | None => if str_in opt names then Some arg else None
      end
  end.

(** A decimal digit. *)
Definition is_digit (ch : ascii) : bool :=
  existsb (Ascii.eqb ch) (list_ascii_of_string "0123456789").

Fixpoint all_digits (s : string) : bool :=
  match s with
  | EmptyString => true
  | String ch rest => is_digit ch && all_digits rest
  end.

(** The text before the first point of [s] and the text after it. *)
Fixpoint split_point (s : string) : option (string * string) :=
  match s with
  | EmptyString => None
  | String ch rest =>
      if Ascii.eqb ch "."%char then Some (EmptyString, rest)
      else
        match split_point rest with
        | Some (a, b) => Some (String ch a, b)
        | None => None
        end
  end.

(** A number in fixed-point notation with [prec] decimals: a minus sign or
    none, one digit at least, a point, [prec] digits. *)
Definition decimal_text (prec : nat) (s : string) : bool :=
  let unsigned :=
    match s with
    | String "-" rest => rest
    | _ => s
    end in
  match split_point unsigned with
  | Some (int, frac) =>
      negb (String.length int =? 0)%nat && all_digits int
      && all_digits frac && (String.length frac =? prec)%nat
  | None => false
  end.

(** What [format(x, '0.<prec>f')] writes for a float: such a number, or
    [nan], [inf], [-inf]. *)
Definition float_text (prec : nat) (s : string) : bool :=
  decimal_text prec s || str_in s ["nan"; "inf"; "-inf"].

(** The stage of a run an event belongs to: reading the input, extracting
    the harmonic constants, reading the delta time, the synthesis, the
    inference, then opening, writing, closing the output file and changing
    its mode.  A [print] belongs to no stage. *)
Definition stage (ev : event) : nat :=
  match ev with
  | EvPrint _ => 0
  | EvLoadtxt _ _ => 1
  | EvExtractOTIS _ _ _ _ _ _ _ _
  | EvExtractNetcdf _ _ _ _ _ _ _ _ _
  | EvExtractGOT _ _ _ _ _ _ _ => 2
  | EvDeltaTime _ _ _ => 3
  | EvPredict _ _ _ _ _ _ => 4
  | EvInfer _ _ _ _ _ _ => 5
  | EvOpen _ _ => 6
  | EvWrite _ _ => 7
  | EvClose _ => 8
  | EvChmod _ _ _ => 9
  end.

(** Do the stages follow one another in order, after [previous], none but
    the writing (7) coming twice? *)
Fixpoint in_order (previous : nat) (stages : list nat) : bool :=
  match stages with
  | [] => true
  | s :: stages' =>
      ((previous <? s) || ((previous =? 7) && (s =? 7)))%nat
      && in_order s stages'
  end.

(** The paths a run hands to the routines that read the model: the grid
    file and the model file of an OTIS or ATLAS model, the model directory
    of a netcdf or GOT model (their files are named relative to it), and
    the delta-time table. *)
Definition model_paths (tr : list event) : list string :=
  flat_map (fun ev =>
              match ev with
              | EvExtractOTIS _ _ grid model _ _ _ _ => [grid; model]
              | EvExtractNetcdf _ _ directory _ _ _ _ _ _ => [directory]
              | EvExtractGOT _ _ directory _ _ _ _ => [directory]
              | EvDeltaTime delta_file _ _ => [delta_file]
              | _ => []
              end) tr.


(* ================================================================== *)
(** * Theorems *)
(* ================================================================== *)

(** ** The library functions on concrete inputs *)

Example format_fill_value : PyFormat.format_f 2 fill_value = "-9999.00".
Proof. reflexivity. Qed.

Example format_days : PyFormat.format_f 6 58000.5%float = "58000.500000".
Proof. reflexivity. Qed.

Example format_ties_to_even :
  (PyFormat.format_f 2 0.125%float, PyFormat.format_f 2 0.375%float,
   PyFormat.format_f 0 2.5%float, PyFormat.format_f 2 (- 0)%float)
  = ("0.12", "0.38", "2", "-0.00").
Proof. reflexivity. Qed.

Example format_not_finite :
  (PyFormat.format_f 2 nan, PyFormat.format_f 2 infinity,
   PyFormat.format_f 2 neg_infinity) = ("nan", "inf", "-inf").
Proof. reflexivity. Qed.

Example join_data_directory :
  (PosixPath.join "/data" ["CATS2008"; "grid_CATS2008a_opt"],
   PosixPath.join "" ["deltat.data"], PosixPath.join "/data/" ["deltat.data"])
  = ("/data/CATS2008/grid_CATS2008a_opt", "deltat.data", "/data/deltat.data").
Proof. reflexivity. Qed.

Example dirname_basename :
  (PosixPath.dirname "/home/user/points.csv", PosixPath.dirname "points.csv",
   PosixPath.dirname "/points.csv", PosixPath.basename "/usr/bin/tides.py")
  = ("/home/user", "", "/", "tides.py").
Proof. reflexivity. Qed.

Example getopt_options_then_arguments :
  parse_argv ["prog"; "-D"; "/data"; "-TGOT4.7"; "--mode=644"; "in.csv";
              "out.csv"]
  = Ok ([("-D", "/data"); ("-T", "GOT4.7"); ("--mode", "644")],
        ["in.csv"; "out.csv"]).
Proof. reflexivity. Qed.

Example getopt_unique_prefix :
  parse_argv ["prog"; "--ti"; "TPXO9.1"; "--"; "-x"]
  = Ok ([("--tide", "TPXO9.1")], ["-x"]).
Proof. reflexivity. Qed.

Example getopt_unknown_option :
  parse_argv ["prog"; "-x"]
  = Raise (GetoptError "option -x not recognized" "x").
Proof. reflexivity. Qed.

(** A GOT model reads the delta-time table of the data directory. *)
Example got_run_reads_delta_time :
  delta_time_calls
    (snd (main Toy.env ["prog"; "-T"; "GOT4.7"; "-D"; "/data"; "two.csv";
                        "out.csv"] []))
  = [("/data/deltat.data", Arr1 [58000; 58000.5]%float)].
Proof. reflexivity. Qed.

(** A run on two records, the second outside the model: the input is
    read and the harmonic constants are extracted, then line 264 raises,
    before the synthesizer is called and before any file is opened. *)
Example two_records_run :
  main Toy.env ["prog"; "two.csv"; "out.csv"] []
  = (Raise (TypeError
              "empty_like() got an unexpected keyword argument 'fill_value'"),
     [EvLoadtxt "two.csv" (Ok Toy.two_rows);
      EvExtractOTIS (Arr1 [- 40; - 41]%float) (Arr1 [70; 71]%float)
        "CATS2008/grid_CATS2008a_opt" "CATS2008/hf.CATS2008.out" "CATS2008"
        "z" "spline"
        (Ok ([[(mk_melem 1.25%float false, mk_melem 0%float false)];
              [(mk_melem 1.25%float true, mk_melem 0%float true)]],
             Arr1 [0; 0]%float, ["m2"]))]).
Proof. reflexivity. Qed.

(** An input without records fares no better. *)
Example empty_input_run :
  let run := main Toy.env ["prog"; "none.csv"; "out.csv"] [] in
  is_ok (fst run) = false /\ written "out.csv" (snd run) = []
  /\ existsb file_event (snd run) = false.
Proof. repeat split. Qed.

(** ** Computations only append to the trace *)

Lemma appends_ret {A : Type} (a : A) : appends (ret a).
Proof. intros tr. unfold ret. simpl. now rewrite app_nil_r. Qed.

Lemma appends_raise {A : Type} (e : exn) : appends (@raise A e).
Proof. intros tr. unfold raise. simpl. now rewrite app_nil_r. Qed.

Lemma appends_lift {A : Type} (r : result A) : appends (lift r).
Proof. intros tr. unfold lift. simpl. now rewrite app_nil_r. Qed.

Lemma appends_call {A : Type} (ev : result A -> event) (r : result A) :
  appends (call ev r).
Proof. intros tr. reflexivity. Qed.

Lemma appends_emit (ev : event) : appends (emit ev).
Proof. intros tr. reflexivity. Qed.

Lemma appends_local {A : Type} (name : string) (v : option A) :
  appends (local name v).
Proof. destruct v; [apply appends_ret | apply appends_raise]. Qed.

Lemma appends_bind {A B : Type} (m : M A) (f : A -> M B) :
  appends m -> (forall a, appends (f a)) -> appends (bind m f).
Proof.
  intros Hm Hf tr. unfold bind.
  rewrite (Hm tr). destruct (m []) as [[a | e] evs] eqn:Hnil; simpl.
  - rewrite (Hf a (tr ++ evs)%list), (Hf a evs). simpl.
    now rewrite app_assoc.
  - reflexivity.
Qed.

(** Running a sequence from the empty trace. *)
Lemma bind_nil {A B : Type} (m : M A) (f : A -> M B) :
  (forall a, appends (f a)) ->
  bind m f [] =
  match m [] with
  | (Ok a, evs) => (fst (f a []), (evs ++ snd (f a []))%list)
  | (Raise e, evs) => (Raise e, evs)
  end.
Proof.
  intros Hf. unfold bind. destruct (m []) as [[a | e] evs]; [| reflexivity].
  apply Hf.
Qed.

Lemma write_lines_run output_file items tr :
  write_lines output_file items tr
  = (Ok tt, (tr ++ map (fun i => EvWrite output_file (line_of i)) items)%list).
Proof.
  revert tr. induction items as [| i items IH]; intros tr; simpl.
  - unfold ret. now rewrite app_nil_r.
  - unfold bind, emit, snoc. rewrite IH. now rewrite <- app_assoc.
Qed.

Lemma appends_write_lines output_file items :
  appends (write_lines output_file items).
Proof. intros tr. now rewrite !write_lines_run. Qed.

Lemma appends_with_open E output_file body :
  appends body -> appends (with_open E output_file body).
Proof.
  intros Hb. unfold with_open. apply appends_bind; [apply appends_call |].
  intros _ tr. rewrite (Hb tr). destruct (body []) as [r evs]. simpl.
  unfold snoc. now rewrite app_assoc.
Qed.

Create HintDb appends.

#[local] Hint Resolve appends_ret appends_raise appends_lift appends_call
  appends_emit appends_local appends_write_lines : appends.

Ltac appends_tac :=
  repeat first
    [ progress eauto with appends
    | apply appends_with_open
    | apply appends_bind; [| intros ?]
    | match goal with
      | |- appends (if ?b then _ else _) => destruct b
      | |- appends (match ?x with _ => _ end) => destruct x
      end ].

Lemma appends_read_constants E tide_dir dinput L fmt :
  appends (read_constants E tide_dir dinput L fmt).
Proof. unfold read_constants. appends_tac. Qed.

Lemma appends_predict E dinput fmt k : appends (predict_tide E dinput fmt k).
Proof. unfold predict_tide. appends_tac. Qed.

Lemma appends_output E dinput tide output_file MODE :
  appends (write_output E dinput tide output_file MODE).
Proof. unfold write_output. appends_tac. Qed.

Lemma appends_usage argv : appends (usage argv).
Proof. unfold usage, argv_at. appends_tac. Qed.

(** ** The shape of every run of [compute_tidal_elevations] *)

Lemma output_run E dinput tide output_file MODE :
  write_output E dinput tide output_file MODE [] =
  match open_w E output_file with
  | Raise e => (Raise e, [EvOpen output_file (Raise e)])
  | Ok u =>
      match zipped dinput tide with
      | Raise e => (Raise e, [EvOpen output_file (Ok u); EvClose output_file])
      | Ok items =>
          (chmod E output_file MODE,
           (EvOpen output_file (Ok u)
            :: map (fun i => EvWrite output_file (line_of i)) items
            ++ [EvClose output_file;
                EvChmod output_file MODE (chmod E output_file MODE)])%list)
      end
  end.
Proof.
  unfold write_output, with_open, bind, call, lift, snoc. simpl.
  destruct (open_w E output_file) as [u | e]; [| reflexivity].
  destruct (zipped dinput tide) as [items | e]; [| reflexivity].
  rewrite write_lines_run. simpl. unfold snoc.
  now rewrite <- app_assoc.
Qed.

(** Line 264: [np.ma.empty_like] is called with [fill_value], and
    raises. *)
Lemma empty_like_fill_value (a : ndarray float) (x : float) :
  exists msg, empty_like a (Some x) = Raise (TypeError msg).
Proof. eexists. reflexivity. Qed.

(** Lines 256-272 never end well.  They stop at line 257 when [ph] is not
    bound and at line 264 when it is; nothing has been called by then. *)
Lemma predict_run E dinput fmt (k : constants) :
  exists e,
    predict_tide E dinput fmt k [] = (Raise e, [])
    /\ match fst (fst k) with
       | Some _ => exists msg, e = TypeError msg
       | None => e = UnboundLocalError "ph"
       end.
Proof.
  destruct k as [[[amp_ph |] c_] deltat]; eexists; (split; [reflexivity |]);
    cbn [fst]; [eexists |]; reflexivity.
Qed.

Lemma compute_run E tide_dir input_file output_file TIDE_MODEL MODE :
  compute_tidal_elevations E tide_dir input_file output_file TIDE_MODEL MODE []
  =
  let load := EvLoadtxt input_file (read_rows E input_file) in
  match read_rows E input_file with
  | Raise e => (Raise e, [load])
  | Ok rows =>
      let dinput := squeeze rows in
      let L := select_model tide_dir TIDE_MODEL in
      match model_format L with
      | None => (Raise (UnboundLocalError "model_format"), [load])
      | Some fmt =>
          match read_constants E tide_dir dinput L fmt [] with
          | (Raise e, evs1) => (Raise e, load :: evs1)
          | (Ok k, evs1) =>
              match predict_tide E dinput fmt k [] with
              | (Raise e, evs2) => (Raise e, (load :: evs1 ++ evs2)%list)
              | (Ok tide, evs2) =>
                  (fst (write_output E dinput tide output_file MODE []),
                   (load :: evs1 ++ evs2
                      ++ snd (write_output E dinput tide output_file MODE
                                []))%list)
              end
          end
      end
  end.
Proof.
  unfold compute_tidal_elevations. unfold bind at 1. unfold call at 1. simpl.
  destruct (read_rows E input_file) as [rows | e]; [| reflexivity].
  unfold bind at 1. unfold local.
  destruct (model_format _) as [fmt |]; [| reflexivity].
  unfold ret at 1. unfold bind at 1.
  rewrite (appends_read_constants E tide_dir (squeeze rows) _ fmt _).
  destruct (read_constants _ _ _ _ _ []) as [[k | e] evs1]; simpl;
    [| reflexivity].
  unfold bind. rewrite (appends_predict E (squeeze rows) fmt k _).
  destruct (predict_tide _ _ _ _ []) as [[tide | e] evs2]; simpl.
  2: reflexivity.
  rewrite (appends_output E (squeeze rows) tide output_file MODE _).
  simpl. now rewrite <- app_assoc.
Qed.

(** ** Reading the trace of a run *)

Lemma omap_app {A B : Type} (f : A -> option B) (l1 l2 : list A) :
  omap f (l1 ++ l2) = (omap f l1 ++ omap f l2)%list.
Proof.
  induction l1 as [| x l1 IH]; simpl; [reflexivity |].
  destruct (f x); simpl; now rewrite IH.
Qed.

Lemma omap_none {A B : Type} (f : A -> option B) (l : list A) :
  Forall (fun x => f x = None) l -> omap f l = [].
Proof.
  induction 1 as [| x l Hx _ IH]; simpl; [reflexivity |]. now rewrite Hx.
Qed.

(** The events of the output stage all concern the output file. *)
Lemma output_events E dinput tide output_file MODE :
  Forall (fun ev => file_event ev = true)
    (snd (write_output E dinput tide output_file MODE [])).
Proof.
  rewrite output_run.
  destruct (open_w E output_file) as [u | e]; simpl; [| repeat constructor].
  destruct (zipped dinput tide) as [items | e]; simpl; [| repeat constructor].
  constructor; [reflexivity |]. apply Forall_app. split.
  - apply Forall_forall. intros ev Hin. apply in_map_iff in Hin.
    destruct Hin as [i [<- _]]. reflexivity.
  - repeat constructor.
Qed.

Lemma file_events_silent (f : event -> option synthesis_args) evs :
  (forall ev, file_event ev = true -> f ev = None) ->
  Forall (fun ev => file_event ev = true) evs -> omap f evs = [].
Proof.
  intros Hf Hall. apply omap_none. revert Hall. apply Forall_impl. exact Hf.
Qed.

Lemma output_predict_calls E dinput tide output_file MODE :
  predict_calls (snd (write_output E dinput tide output_file MODE [])) = [].
Proof.
  apply file_events_silent; [| apply output_events].
  now intros [].
Qed.

Lemma output_infer_calls E dinput tide output_file MODE :
  infer_calls (snd (write_output E dinput tide output_file MODE [])) = [].
Proof.
  apply file_events_silent; [| apply output_events].
  now intros [].
Qed.

Lemma output_delta_time_calls E dinput tide output_file MODE :
  delta_time_calls (snd (write_output E dinput tide output_file MODE [])) = [].
Proof.
  apply omap_none. generalize (output_events E dinput tide output_file MODE).
  apply Forall_impl. now intros [].
Qed.

(** Lines 241-254 call neither the synthesizer nor the inference, and the
    delta-time table is read for the GOT format only. *)
Lemma read_constants_stage E tide_dir dinput L fmt :
  let run := read_constants E tide_dir dinput L fmt [] in
  let mjd := nd_map MJD dinput in
  let delta_file := PosixPath.join tide_dir ["deltat.data"] in
  predict_calls (snd run) = []
  /\ infer_calls (snd run) = []
  /\ Forall (fun ev => file_event ev = false) (snd run)
  /\ (forall amp_ph c_ deltat,
        fst run = Ok (Some amp_ph, c_, deltat) ->
        extracted (snd run) = [amp_ph])
  /\ (no_delta_time fmt = true ->
        delta_time_calls (snd run) = []
        /\ forall amp_ph c_ deltat,
             fst run = Ok (amp_ph, c_, Some deltat) -> deltat = zeros_like mjd)
  /\ (no_delta_time fmt = false ->
        forall amp_ph c_ deltat,
          fst run = Ok (amp_ph, c_, Some deltat) ->
          fmt = "GOT"
          /\ calc_delta_time E delta_file mjd = Ok deltat
          /\ delta_time_calls (snd run) = [(delta_file, mjd)]).
Proof.
  intros run mjd delta_file. subst run.
  unfold read_constants, no_delta_time. cbv [str_in existsb].
  destruct (String.eqb_spec fmt "OTIS") as [-> | HO];
    [| destruct (String.eqb_spec fmt "ATLAS") as [-> | HA];
       [| destruct (String.eqb_spec fmt "netcdf") as [-> | HN];
          [| destruct (String.eqb_spec fmt "GOT") as [-> | HG] ] ] ];
    simpl orb; cbv iota;
    unfold bind, call, local, ret, raise, snoc;
    repeat match goal with
      | |- context [match ?x with _ => _ end] =>
          lazymatch x with
          | context [match _ with _ => _ end] => fail
          | _ => destruct x eqn:?
          end
      end;
    simpl;
    repeat split; auto; try discriminate;
    try (repeat constructor; fail);
    intros; simpl in *; try discriminate; try congruence;
    repeat match goal with
      | H : Ok _ = Ok _ |- _ => injection H as <- <- <-
      end; auto.
Qed.

Lemma written_writes output_file items :
  written output_file
    (map (fun i => EvWrite output_file (line_of i)) items)
  = map line_of items.
Proof.
  unfold written. induction items as [| i items IH]; simpl; [reflexivity |].
  now rewrite String.eqb_refl, IH.
Qed.

Lemma written_silent output_file evs :
  Forall (fun ev => file_event ev = false) evs -> written output_file evs = [].
Proof.
  intros H. apply omap_none. revert H. apply Forall_impl.
  intros [] Hev; try reflexivity; discriminate Hev.
Qed.

Lemma written_app output_file evs1 evs2 :
  written output_file (evs1 ++ evs2)
  = (written output_file evs1 ++ written output_file evs2)%list.
Proof. apply omap_app. Qed.

(** ** The trace of every run *)

(** Every run stops at line 264 at the latest: its trace is the loading
    and the events of lines 241-254. *)
Lemma compute_stops E tide_dir input_file output_file TIDE_MODEL MODE :
  compute_tidal_elevations E tide_dir input_file output_file TIDE_MODEL MODE []
  =
  let load := EvLoadtxt input_file (read_rows E input_file) in
  match read_rows E input_file with
  | Raise e => (Raise e, [load])
  | Ok rows =>
      let dinput := squeeze rows in
      let L := select_model tide_dir TIDE_MODEL in
      match model_format L with
      | None => (Raise (UnboundLocalError "model_format"), [load])
      | Some fmt =>
          match read_constants E tide_dir dinput L fmt [] with
          | (Raise e, evs1) => (Raise e, load :: evs1)
          | (Ok k, evs1) =>
              (and_then (fst (predict_tide E dinput fmt k []))
                 (fun _ => Ok tt), load :: evs1)
          end
      end
  end.
Proof.
  rewrite compute_run. cbv zeta.
  destruct (read_rows E input_file) as [rows | e]; [| reflexivity].
  destruct (model_format _) as [fmt |]; [| reflexivity].
  destruct (read_constants _ _ _ _ _ []) as [[k | e] evs1]; [| reflexivity].
  destruct (predict_run E (squeeze rows) fmt k) as (e & -> & _).
  cbn [fst snd]. now rewrite app_nil_r.
Qed.

Lemma file_events_no_calls evs :
  Forall (fun ev => file_event ev = true) evs ->
  predict_calls evs = [] /\ infer_calls evs = []
  /\ delta_time_calls evs = [] /\ extracted evs = [].
Proof.
  intros H. repeat split; apply omap_none; revert H; apply Forall_impl;
    intros [] Hev; try reflexivity; discriminate Hev.
Qed.

(** No run ends well, calls the synthesizer or the inference, or touches
    a file. *)
Lemma compute_calls E tide_dir input_file output_file TIDE_MODEL MODE :
  let run :=
    compute_tidal_elevations E tide_dir input_file output_file TIDE_MODEL MODE []
  in
  predict_calls (snd run) = [] /\ infer_calls (snd run) = []
  /\ is_ok (fst run) = false
  /\ Forall (fun ev => file_event ev = false) (snd run).
Proof.
  cbv zeta. rewrite compute_stops. cbv zeta.
  destruct (read_rows E input_file) as [rows | e];
    [| repeat split; repeat constructor].
  destruct (model_format _) as [fmt |]; [| repeat split; repeat constructor].
  pose proof (read_constants_stage E tide_dir (squeeze rows)
                (select_model tide_dir TIDE_MODEL) fmt) as Hst.
  cbv zeta in Hst. destruct Hst as (Hp & Hi & Hs & _).
  destruct (read_constants _ _ _ _ _ []) as [[k | e] evs1]; cbn [fst snd] in *.
  - destruct (predict_run E (squeeze rows) fmt k) as (e & -> & _).
    repeat split; try assumption. now constructor.
  - repeat split; try assumption. now constructor.
Qed.

(** The delta-time table is read by lines 241-254 or not at all. *)
Lemma compute_delta_time_calls E tide_dir input_file output_file TIDE_MODEL MODE
    rows fmt :
  read_rows E input_file = Ok rows ->
  model_format (select_model tide_dir TIDE_MODEL) = Some fmt ->
  delta_time_calls
    (snd (compute_tidal_elevations E tide_dir input_file output_file
            TIDE_MODEL MODE []))
  = delta_time_calls
      (snd (read_constants E tide_dir (squeeze rows)
              (select_model tide_dir TIDE_MODEL) fmt [])).
Proof.
  intros Hrows Hfmt. rewrite compute_stops, Hrows. cbv zeta. rewrite Hfmt.
  now destruct (read_constants _ _ _ _ _ []) as [[k | e] evs1].
Qed.

(** What a run has written is nothing. *)
Lemma compute_written E tide_dir input_file output_file TIDE_MODEL MODE :
  written output_file
    (snd (compute_tidal_elevations E tide_dir input_file output_file
            TIDE_MODEL MODE [])) = [].
Proof.
  apply written_silent.
  apply (compute_calls E tide_dir input_file output_file TIDE_MODEL MODE).
Qed.

Lemma zeros_like_items (a : ndarray float) :
  nd_size (zeros_like a) = nd_size a
  /\ Forall (fun x => x = 0%float) (nd_items (zeros_like a)).
Proof.
  destruct a as [x | xs]; unfold nd_size; simpl.
  - split; [reflexivity | repeat constructor].
  - split; [apply length_map |].
    apply Forall_forall. intros x Hin. apply in_map_iff in Hin.
    now destruct Hin as [y [<- _]].
Qed.

(* ================================================================== *)
(** * The properties of the specification *)
(* ================================================================== *)

(** C4. In every run the synthesizer [predict_tide_drift] is called at most
    once and the inference [infer_minor_corrections] only after it, with
    the same times, harmonic constants, constituents, delta time and
    format; the times are the Modified Julian Days of the input minus
    48622.0 and the format is the one of the model.  A run that ends well
    has called both, once each.  (Line 264 stands between the extraction
    and these calls: as it raises, the runs of the code as it is make
    neither call and none ends well.) *)
Theorem synthesizer_and_inference_share_inputs
    E tide_dir input_file output_file TIDE_MODEL MODE :
  let run :=
    compute_tidal_elevations E tide_dir input_file output_file TIDE_MODEL MODE []
  in
  Forall
    (fun a =>
       exists rows fmt,
         read_rows E input_file = Ok rows
         /\ model_format (select_model tide_dir TIDE_MODEL) = Some fmt
         /\ arg_t a = nd_map (fun d => (d - 48622)%float)
                        (nd_map MJD (squeeze rows))
         /\ arg_CORRECTIONS a = fmt)
    (predict_calls (snd run) ++ infer_calls (snd run))
  /\ (infer_calls (snd run) = []
      \/ infer_calls (snd run) = predict_calls (snd run))
  /\ List.length (predict_calls (snd run)) <= 1
  /\ (fst run = Ok tt ->
      exists a, predict_calls (snd run) = [a] /\ infer_calls (snd run) = [a]).
Proof.
  cbv zeta.
  destruct (compute_calls E tide_dir input_file output_file TIDE_MODEL MODE)
    as (Hp & Hi & Hfail & _).
  cbv zeta in *. rewrite Hp, Hi. repeat split; auto.
  intros Hrun. rewrite Hrun in Hfail. discriminate.
Qed.

(** C5. For a model whose format is OTIS, ATLAS or netcdf the delta-time
    table is never read and the delta time passed to the synthesizer and
    to the inference is [zeros_like] of the times: one exact zero per query
    point.  Otherwise a delta time reaches them only for the GOT format,
    and it is what [calc_delta_time] returned for the file [deltat.data] of
    the data directory and the Modified Julian Days of the input.  (What
    is said of the delta-time table holds of lines 241-254, which every
    run with a readable input and a catalogued model goes through; what is
    said of the calls holds of the calls a run makes.) *)
Theorem delta_time_zero_unless_GOT
    E tide_dir input_file output_file TIDE_MODEL MODE rows fmt :
  read_rows E input_file = Ok rows ->
  model_format (select_model tide_dir TIDE_MODEL) = Some fmt ->
  let run :=
    compute_tidal_elevations E tide_dir input_file output_file TIDE_MODEL MODE []
  in
  let mjd := nd_map MJD (squeeze rows) in
  let delta_file := PosixPath.join tide_dir ["deltat.data"] in
  let calls := (predict_calls (snd run) ++ infer_calls (snd run))%list in
  (no_delta_time fmt = true ->
   delta_time_calls (snd run) = []
   /\ Forall (fun a => arg_DELTAT a = zeros_like mjd
                       /\ nd_size (arg_DELTAT a) = nd_size mjd
                       /\ Forall (fun x => x = 0%float)
                            (nd_items (arg_DELTAT a)))
        calls)
  /\ (no_delta_time fmt = false ->
      Forall (fun a => fmt = "GOT"
                       /\ delta_time_calls (snd run) = [(delta_file, mjd)]
                       /\ calc_delta_time E delta_file mjd = Ok (arg_DELTAT a))
        calls).
Proof.
  intros Hrows Hfmt. cbv zeta.
  rewrite (compute_delta_time_calls _ _ _ _ _ _ _ _ Hrows Hfmt).
  pose proof (read_constants_stage E tide_dir (squeeze rows)
                (select_model tide_dir TIDE_MODEL) fmt) as Hst.
  cbv zeta in Hst. destruct Hst as (_ & _ & _ & _ & Hzero & _).
  destruct (compute_calls E tide_dir input_file output_file TIDE_MODEL MODE)
    as (Hp & Hi & _).
  cbv zeta in *. rewrite Hp, Hi.
  split; intros Hnd; [split |]; try constructor.
  now apply Hzero.
Qed.

Lemma delta_time_zero_unless_GOT_witness :
  read_rows Toy.env "two.csv" = Ok Toy.two_rows
  /\ model_format (select_model "" "CATS2008") = Some "OTIS"
  /\ no_delta_time "OTIS" = true
  /\ delta_time_calls
       (snd (compute_tidal_elevations Toy.env "" "two.csv" "out.csv"
               "CATS2008" 509 [])) = []
  /\ Forall (fun a => arg_DELTAT a = Arr1 [0%float; 0%float])
       (predict_calls
          (snd (compute_tidal_elevations Toy.env "" "two.csv" "out.csv"
                  "CATS2008" 509 []))
        ++ infer_calls
             (snd (compute_tidal_elevations Toy.env "" "two.csv" "out.csv"
                     "CATS2008" 509 [])))%list.
Proof.
  do 3 (split; [reflexivity |]).
  destruct (delta_time_zero_unless_GOT Toy.env "" "two.csv" "out.csv"
              "CATS2008" 509%Z Toy.two_rows "OTIS" eq_refl eq_refl)
    as [Hzero _].
  destruct (Hzero eq_refl) as [Hnone Hall]. split; [exact Hnone |].
  revert Hall. apply Forall_impl. intros a (Ha & _). exact Ha.
Defined.

(** C3. The harmonic constants the synthesizer receives are, entry by
    entry, [hc_entry] of the amplitude and the phase the extraction
    returned for that point and constituent.  A masked amplitude or phase
    masks the entry; an entry that is not masked holds
    [A * exp(((-1j * ph) * pi) / 180)], that is the amplitude times the
    exponential of the phase negated (by the factor [-1j]) and then taken
    from degrees to radians.  (Lines 257-259 are run before line 264
    raises; the first part is of the calls a run makes.) *)
Theorem harmonic_constant_of_amplitude_and_phase
    E tide_dir input_file output_file TIDE_MODEL MODE :
  let run :=
    compute_tidal_elevations E tide_dir input_file output_file TIDE_MODEL MODE []
  in
  Forall
    (fun a =>
       exists amp_ph,
         extracted (snd run) = [amp_ph]
         /\ arg_hc a = map (map (fun s => hc_entry E (fst s) (snd s))) amp_ph)
    (predict_calls (snd run))
  /\ forall amp ph : melem float,
       (mask amp = true \/ mask ph = true -> mask (hc_entry E amp ph) = true)
       /\ (mask (hc_entry E amp ph) = false ->
           data (hc_entry E amp ph)
           = c_mul E (of_float (data amp))
               (c_exp E
                  (c_div E
                     (c_mul E (c_mul E neg_j (of_float (data ph)))
                        (of_float np_pi))
                     (of_float 180%float)))).
Proof.
  cbv zeta. split.
  - destruct (compute_calls E tide_dir input_file output_file TIDE_MODEL MODE)
      as (Hp & _).
    cbv zeta in Hp. rewrite Hp. constructor.
  - intros amp ph. unfold hc_entry, ma_multiply, ma_exp, cph, ma_true_divide,
      ma_multiply, to_complex, plain.
    cbn [data mask]. rewrite !orb_false_r.
    destruct (mask amp), (mask ph); cbn [orb negb andb];
      rewrite ?orb_true_r;
      (split; [intros [H | H]; try discriminate H | intros H];
       try reflexivity; try discriminate H).
    now rewrite H.
Qed.

Lemma negb_existsb {A : Type} (f : A -> bool) (l : list A) :
  negb (existsb f l) = forallb (fun x => negb (f x)) l.
Proof.
  induction l as [| x l IH]; simpl; [reflexivity |].
  now rewrite negb_orb, IH.
Qed.

(** What line 265 is written to give, were it reached: with one row of
    harmonic constants per point, the mask bit of point [i] is the
    disjunction of the mask bits of row [i]. *)
Lemma point_mask_row (hc : hc_array) i :
  i < List.length hc -> point_mask hc i = existsb mask (nth i hc []).
Proof.
  intros Hi. unfold point_mask, any_axis1. rewrite length_map.
  rewrite Nat.mod_small by exact Hi.
  change false with (existsb (@mask complex) []). apply map_nth.
Qed.

(** C2.  Lines 256-272 never give a [tide].  With the harmonic constants
    bound they stop at line 264, where [np.ma.empty_like] is called with
    [fill_value] and raises [TypeError], whatever the validity bits of the
    samples: line 265, which is written to set the mask of a point to the
    disjunction of the masks of its samples, is not reached, and nothing
    has been called.  No validity flag of a point is ever set. *)
Theorem validity_flags_are_never_set E dinput fmt amp_ph c_ deltat :
  exists msg,
    predict_tide E dinput fmt (Some amp_ph, c_, deltat) []
    = (Raise (TypeError msg), []).
Proof.
  destruct (predict_run E dinput fmt (Some amp_ph, c_, deltat))
    as (e & Hrun & [msg ->]).
  now exists msg.
Qed.

(** The two records of which the second is outside the model. *)
Lemma validity_flags_are_never_set_witness :
  existsb (fun s => mask (fst s) || mask (snd s))
    (nth 1 (Toy.extract (Arr1 [70; 71]%float)) []) = true
  /\ exists msg,
       predict_tide Toy.env (Arr1 Toy.two_rows) "OTIS"
         (Some (Toy.extract (Arr1 [70; 71]%float)), Some ["m2"],
          Some (Arr1 [0; 0]%float)) []
       = (Raise (TypeError msg), []).
Proof.
  split; [reflexivity |].
  exact (validity_flags_are_never_set Toy.env (Arr1 Toy.two_rows) "OTIS"
           (Toy.extract (Arr1 [70; 71]%float)) (Some ["m2"])
           (Some (Arr1 [0; 0]%float))).
Defined.

(** C6.  No run calls the synthesizer or the inference: a run that gets
    as far as line 264 stops there, so that there is no elevation and no
    minor correction to add, and lines 266-272 are not reached. *)
Theorem elevation_and_correction_are_never_computed
    E tide_dir input_file output_file TIDE_MODEL MODE :
  let run :=
    compute_tidal_elevations E tide_dir input_file output_file TIDE_MODEL MODE []
  in
  predict_calls (snd run) = [] /\ infer_calls (snd run) = []
  /\ is_ok (fst run) = false.
Proof.
  cbv zeta.
  destruct (compute_calls E tide_dir input_file output_file TIDE_MODEL MODE)
    as (Hp & Hi & Hfail & _).
  auto.
Qed.

Lemma elevation_and_correction_are_never_computed_witness :
  let run := compute_tidal_elevations Toy.env "" "two.csv" "out.csv"
               "CATS2008" 509 [] in
  List.length (extracted (snd run)) = 1
  /\ predict_calls (snd run) = [] /\ infer_calls (snd run) = []
  /\ is_ok (fst run) = false.
Proof.
  split; [reflexivity |].
  exact (elevation_and_correction_are_never_computed Toy.env "" "two.csv"
           "out.csv" "CATS2008" 509%Z).
Defined.

Lemma select_model_unknown tide_dir TIDE_MODEL :
  ~ In TIDE_MODEL catalogue -> select_model tide_dir TIDE_MODEL = unbound.
Proof.
  intros Hnot. unfold select_model.
  repeat match goal with
  | |- (if ?s =? ?lit then _ else _) = _ =>
      destruct (String.eqb_spec s lit) as [-> | _];
      [ exfalso; apply Hnot; simpl; tauto | ]
  end.
  reflexivity.
Qed.

(** C9. With a [TIDE_MODEL] outside the catalogue the call raises: the
    exception of [np.loadtxt] when the input cannot be read, and otherwise
    [UnboundLocalError] for [model_format].  Reading the input is all it
    has done by then: no extraction, no output file. *)
Theorem unknown_model_fails_before_any_output
    E tide_dir input_file output_file TIDE_MODEL MODE :
  ~ In TIDE_MODEL catalogue ->
  exists e,
    compute_tidal_elevations E tide_dir input_file output_file TIDE_MODEL MODE []
    = (Raise e, [EvLoadtxt input_file (read_rows E input_file)])
    /\ (is_ok (read_rows E input_file) = true ->
        e = UnboundLocalError "model_format").
Proof.
  intros Hnot. rewrite compute_run. cbv zeta.
  rewrite (select_model_unknown _ _ Hnot). cbn [model_format unbound].
  destruct (read_rows E input_file) as [rows | e].
  - eexists. split; reflexivity.
  - eexists. split; [reflexivity | discriminate].
Qed.

Lemma unknown_model_fails_before_any_output_witness :
  ~ In "FES2014" catalogue
  /\ exists e,
       compute_tidal_elevations Toy.env "" "two.csv" "out.csv" "FES2014" 509 []
       = (Raise e, [EvLoadtxt "two.csv" (Ok Toy.two_rows)])
       /\ (is_ok (Ok Toy.two_rows) = true ->
           e = UnboundLocalError "model_format").
Proof.
  assert (Hnot : ~ In "FES2014" catalogue).
  { simpl. intros H.
    repeat (destruct H as [H | H]; [discriminate H |]). exact H. }
  split; [exact Hnot |].
  exact (unknown_model_fails_before_any_output Toy.env "" "two.csv" "out.csv"
           "FES2014" 509%Z Hnot).
Defined.

(** ** Independence of the fourth column *)

Lemma nd_map_squeeze {B : Type} (f : row -> B) rows :
  nd_map f (squeeze rows)
  = match map f rows with
    | [x] => Arr0 x
    | l => Arr1 l
    end.
Proof. now destruct rows as [| r [| r' rows]]. Qed.

Lemma forget_h_columns rows1 rows2 :
  map forget_h rows1 = map forget_h rows2 ->
  nd_map MJD (squeeze rows1) = nd_map MJD (squeeze rows2)
  /\ nd_map lat (squeeze rows1) = nd_map lat (squeeze rows2)
  /\ nd_map lon (squeeze rows1) = nd_map lon (squeeze rows2).
Proof.
  intros H. rewrite !nd_map_squeeze.
  assert (HM : map MJD rows1 = map MJD rows2).
  { change MJD with (fun r => fst (fst (forget_h r))).
    now rewrite <- !(map_map forget_h (fun x => fst (fst x))), H. }
  assert (HA : map lat rows1 = map lat rows2).
  { change lat with (fun r => snd (fst (forget_h r))).
    now rewrite <- !(map_map forget_h (fun x => snd (fst x))), H. }
  assert (HO : map lon rows1 = map lon rows2).
  { change lon with (fun r => snd (forget_h r)).
    now rewrite <- !(map_map forget_h (fun x => snd x)), H. }
  now rewrite HM, HA, HO.
Qed.

(** C10. Two inputs that differ in the fourth column only give the same
    run: the same outcome, the same calls with the same arguments and
    outcomes, the same lines written.  Only the record of what
    [np.loadtxt] returned, the first event, shows the fourth column. *)
Theorem output_independent_of_input_elevation
    E rows1 rows2 tide_dir input_file output_file TIDE_MODEL MODE :
  map forget_h rows1 = map forget_h rows2 ->
  let run1 :=
    compute_tidal_elevations (with_rows E (fun _ => Ok rows1)) tide_dir
      input_file output_file TIDE_MODEL MODE [] in
  let run2 :=
    compute_tidal_elevations (with_rows E (fun _ => Ok rows2)) tide_dir
      input_file output_file TIDE_MODEL MODE [] in
  fst run1 = fst run2
  /\ written output_file (snd run1) = written output_file (snd run2)
  /\ tl (snd run1) = tl (snd run2).
Proof.
  intros H. destruct (forget_h_columns _ _ H) as (HM & HA & HO).
  cbv zeta.
  pose (rest := fun dinput : ndarray row =>
          bind (local "model_format"
                  (model_format (select_model tide_dir TIDE_MODEL)))
            (fun fmt =>
               bind (read_constants E tide_dir dinput
                       (select_model tide_dir TIDE_MODEL) fmt)
                 (fun k =>
                    bind (predict_tide E dinput fmt k)
                      (fun tide =>
                         write_output E dinput tide output_file MODE)))).
  assert (Hrun : forall rows,
             compute_tidal_elevations (with_rows E (fun _ => Ok rows)) tide_dir
               input_file output_file TIDE_MODEL MODE []
             = rest (squeeze rows) [EvLoadtxt input_file (Ok rows)])
    by reflexivity.
  assert (Happ : forall dinput, appends (rest dinput)).
  { intros dinput. apply appends_bind; [apply appends_local |]. intros fmt.
    apply appends_bind; [apply appends_read_constants |]. intros k.
    apply appends_bind; [apply appends_predict |]. intros tide.
    apply appends_output. }
  assert (Hsame : rest (squeeze rows1) = rest (squeeze rows2)).
  { unfold rest, read_constants, predict_tide, write_output, zipped.
    now rewrite HM, HA, HO. }
  rewrite !Hrun, (Happ (squeeze rows1)), (Happ (squeeze rows2)), Hsame.
  cbn [fst snd app tl]. repeat split.
Qed.

Lemma output_independent_of_input_elevation_witness :
  map forget_h Toy.two_rows
  = map forget_h [mk_row 58000 70 (- 40) 3.5; mk_row 58000.5 71 (- 41) 0]%float
  /\ written "out.csv"
       (snd (compute_tidal_elevations
               (with_rows Toy.env (fun _ => Ok Toy.two_rows)) "" "two.csv"
               "out.csv" "CATS2008" 509 []))
     = written "out.csv"
         (snd (compute_tidal_elevations
                 (with_rows Toy.env
                    (fun _ => Ok [mk_row 58000 70 (- 40) 3.5;
                                  mk_row 58000.5 71 (- 41) 0]%float))
                 "" "two.csv" "out.csv" "CATS2008" 509 [])).
Proof.
  split; [reflexivity |].
  exact (proj1 (proj2
    (output_independent_of_input_elevation Toy.env Toy.two_rows
       [mk_row 58000 70 (- 40) 3.5; mk_row 58000.5 71 (- 41) 0]%float
       "" "two.csv" "out.csv" "CATS2008" 509%Z eq_refl))).
Defined.

(** ** The command line *)

Lemma appends_option_step E argv s oa : appends (option_step E argv s oa).
Proof.
  unfold option_step. destruct s as [[tide_dir TIDE_MODEL] MODE].
  destruct oa as [opt arg].
  repeat match goal with
    | |- appends (if ?b then _ else _) => destruct b
    end;
    repeat first
      [ apply appends_usage | apply appends_ret | apply appends_raise
      | apply appends_lift | apply appends_bind; [| intros ?] ].
Qed.

Lemma appends_option_loop E argv optlist s :
  appends (option_loop E argv s optlist).
Proof.
  revert s. induction optlist as [| oa optlist IH]; intros s; simpl.
  - apply appends_ret.
  - apply appends_bind; [apply appends_option_step | exact IH].
Qed.

Lemma appends_compute E tide_dir input_file output_file TIDE_MODEL MODE :
  appends
    (compute_tidal_elevations E tide_dir input_file output_file TIDE_MODEL MODE).
Proof.
  unfold compute_tidal_elevations.
  apply appends_bind; [apply appends_call |]. intros rows.
  apply appends_bind; [apply appends_local |]. intros fmt.
  apply appends_bind; [apply appends_read_constants |]. intros k.
  apply appends_bind; [apply appends_predict |]. intros tide.
  apply appends_output.
Qed.

(** [usage] prints and does nothing else. *)
Lemma usage_prints argv :
  Forall (fun ev => pipeline_event ev = false) (snd (usage argv [])).
Proof.
  unfold usage, argv_at, bind, emit, ret, raise, snoc.
  destruct (nth_error argv 0); simpl; repeat constructor.
Qed.

(** The loop over the options prints at most the usage; when it ends well
    it has printed nothing. *)
Lemma option_loop_prints E argv optlist s :
  let run := option_loop E argv s optlist [] in
  Forall (fun ev => pipeline_event ev = false) (snd run)
  /\ (is_ok (fst run) = true -> snd run = []).
Proof.
  revert s. induction optlist as [| oa optlist IH]; intros s; cbv zeta.
  - simpl. split; [constructor | reflexivity].
  - cbn [option_loop]. rewrite bind_nil by (intros; apply appends_option_loop).
    assert (Hstep :
              (exists s', option_step E argv s oa [] = (Ok s', []))
              \/ (exists e, option_step E argv s oa []
                            = (Raise e, snd (option_step E argv s oa []))
                            /\ Forall (fun ev => pipeline_event ev = false)
                                 (snd (option_step E argv s oa [])))).
    { unfold option_step. destruct s as [[tide_dir TIDE_MODEL] MODE].
      destruct oa as [opt arg].
      destruct (str_in opt ["-h"; "--help"]).
      { right. rewrite bind_nil by (intros; apply appends_raise).
        destruct (usage argv []) as [[u | e] evs] eqn:Hu; cbn [fst snd];
          eexists; (split; [reflexivity |]);
          pose proof (usage_prints argv) as Hpr; rewrite Hu in Hpr;
          cbn [snd] in Hpr; unfold raise; cbn [snd];
          now rewrite ?app_nil_r. }
      destruct (str_in opt ["-D"; "--directory"]);
        [left; eexists; reflexivity |].
      destruct (str_in opt ["-T"; "--tide"]);
        [left; eexists; reflexivity |].
      destruct (str_in opt ["-M"; "--mode"]);
        [| left; eexists; reflexivity].
      unfold bind, lift, ret. destruct (int_base8 E arg) as [mode | e].
      - left. eexists. reflexivity.
      - right. eexists. split; [reflexivity | constructor]. }
    destruct Hstep as [[s' ->] | [e [-> Hpr]]].
    + cbn [app]. specialize (IH s'). cbv zeta in IH.
      destruct (option_loop E argv s' optlist []) as [r evs]. exact IH.
    + split; [exact Hpr | discriminate].
Qed.

(** Without a help option, and when every mode is an octal number, the
    loop over the options ends well. *)
Lemma option_loop_ok E argv optlist s :
  has_help optlist = false -> modes_parse E optlist = true ->
  is_ok (fst (option_loop E argv s optlist [])) = true.
Proof.
  revert s. induction optlist as [| [opt arg] optlist IH]; intros s Hh Hm.
  - reflexivity.
  - unfold has_help in Hh. unfold modes_parse in Hm.
    cbn [existsb forallb fst snd] in Hh, Hm.
    apply orb_false_iff in Hh. destruct Hh as [Hh1 Hh2].
    apply andb_true_iff in Hm. destruct Hm as [Hm1 Hm2].
    cbn [option_loop]. rewrite bind_nil by (intros; apply appends_option_loop).
    assert (Hstep : exists s',
               option_step E argv s (opt, arg) [] = (Ok s', [])).
    { unfold option_step. destruct s as [[tide_dir TIDE_MODEL] MODE].
      rewrite Hh1.
      destruct (str_in opt ["-D"; "--directory"]);
        [eexists; reflexivity |].
      destruct (str_in opt ["-T"; "--tide"]);
        [eexists; reflexivity |].
      destruct (str_in opt ["-M"; "--mode"]);
        [| eexists; reflexivity].
      unfold bind, lift, ret. destruct (int_base8 E arg) as [mode | e];
        [eexists; reflexivity | discriminate Hm1]. }
    destruct Hstep as [s' ->]. cbn [fst]. now apply IH.
Qed.

(** The shape of every run of [main]. *)
Lemma main_run E argv :
  main E argv [] =
  match parse_argv argv with
  | Raise e => (Raise e, [])
  | Ok (optlist, arglist) =>
      match option_loop E argv (None, "CATS2008", 509%Z) optlist [] with
      | (Raise e, evs) => (Raise e, evs)
      | (Ok (tide_dir, TIDE_MODEL, MODE), evs) =>
          match arglist with
          | [] => (Raise usage_error, evs)
          | [a0] => (Raise (IndexError "list index out of range"), evs)
          | a0 :: a1 :: _ =>
              let dir := match tide_dir with
                         | None => PosixPath.dirname (expanduser E a0)
                         | Some d => d
                         end in
              let run := compute_tidal_elevations E dir (expanduser E a0)
                           (expanduser E a1) TIDE_MODEL MODE [] in
              (fst run, (evs ++ snd run)%list)
          end
      end
  end.
Proof.
  unfold main, parse_argv. unfold bind at 1. unfold lift at 1.
  destruct (Getopt.getopt _ _ _) as [[optlist arglist] | e]; [| reflexivity].
  unfold bind at 1.
  destruct (option_loop _ _ _ _ []) as [[[[tide_dir TIDE_MODEL] MODE] | e] evs];
    [| reflexivity].
  destruct arglist as [| a0 [| a1 arglist]]; try reflexivity.
  unfold item, bind, ret. cbn [nth_error].
  apply appends_compute.
Qed.

(** A help option ends the loop: the usage is printed and [sys.exit()]
    raises [SystemExit]. *)
Lemma option_loop_help E prog args optlist s :
  has_help optlist = true -> modes_parse E optlist = true ->
  option_loop E (prog :: args) s optlist []
  = (Raise (SystemExit None), snd (usage (prog :: args) [])).
Proof.
  revert s. induction optlist as [| [opt arg] optlist IH]; intros s Hh Hm.
  - discriminate Hh.
  - unfold has_help in Hh. unfold modes_parse in Hm.
    cbn [existsb forallb fst snd] in Hh, Hm.
    apply andb_true_iff in Hm. destruct Hm as [Hm1 Hm2].
    cbn [option_loop]. rewrite bind_nil by (intros; apply appends_option_loop).
    unfold option_step. destruct s as [[tide_dir TIDE_MODEL] MODE].
    destruct (str_in opt ["-h"; "--help"]) eqn:Hhelp.
    { reflexivity. }
    cbn [orb] in Hh.
    destruct (str_in opt ["-D"; "--directory"]);
      [cbn [ret fst snd app]; now rewrite (IH _ Hh Hm2) |].
    destruct (str_in opt ["-T"; "--tide"]);
      [cbn [ret fst snd app]; now rewrite (IH _ Hh Hm2) |].
    destruct (str_in opt ["-M"; "--mode"]);
      [| cbn [ret fst snd app]; now rewrite (IH _ Hh Hm2)].
    unfold bind, lift, ret. destruct (int_base8 E arg) as [mode | e];
      [| discriminate Hm1].
    cbn [fst snd app]. now rewrite (IH _ Hh Hm2).
Qed.

(** C8 (amended). With fewer than two positional arguments [main] ends
    with an exception and has not run the prediction pipeline: whatever it
    did was printing.  With no positional argument, no help option and
    modes that are octal numbers the exception is
    [Exception('No System Arguments Listed')].  With a help option (and
    such modes) [main] prints the usage and [sys.exit()] raises
    [SystemExit], which ends the program with status 0. *)
Theorem too_few_arguments_stop_before_the_pipeline E argv optlist arglist :
  parse_argv argv = Ok (optlist, arglist) ->
  List.length arglist < 2 ->
  let run := main E argv [] in
  is_ok (fst run) = false
  /\ Forall (fun ev => pipeline_event ev = false) (snd run)
  /\ (arglist = [] -> has_help optlist = false ->
      modes_parse E optlist = true -> run = (Raise usage_error, []))
  /\ (has_help optlist = true -> modes_parse E optlist = true ->
      run = (Raise (SystemExit None), snd (usage argv []))).
Proof.
  intros Hparse Hlen. cbv zeta. rewrite main_run, Hparse.
  pose proof (option_loop_prints E argv optlist (None, "CATS2008", 509%Z))
    as Hprints.
  cbv zeta in Hprints. destruct Hprints as [Hpr Hnil].
  split; [| split; [| split]].
  - destruct (option_loop _ _ _ _ []) as [[[[td tm] md] | e] evs];
      [| reflexivity].
    destruct arglist as [| a0 [| a1 arglist]]; try reflexivity.
    simpl in Hlen. lia.
  - destruct (option_loop _ _ _ _ []) as [[[[td tm] md] | e] evs];
      [| exact Hpr].
    destruct arglist as [| a0 [| a1 arglist]]; try exact Hpr.
    simpl in Hlen. lia.
  - intros -> Hh Hm.
    pose proof (option_loop_ok E argv optlist (None, "CATS2008", 509%Z) Hh Hm)
      as Hok.
    destruct (option_loop _ _ _ _ []) as [[[[td tm] md] | e] evs];
      [| discriminate Hok].
    cbn [fst snd] in Hnil. now rewrite (Hnil Hok).
  - intros Hh Hm. destruct argv as [| prog args].
    + unfold parse_argv in Hparse. simpl in Hparse.
      injection Hparse as <- <-. discriminate Hh.
    + now rewrite (option_loop_help E prog args optlist _ Hh Hm).
Qed.

Lemma too_few_arguments_stop_before_the_pipeline_witness :
  parse_argv ["compute_tidal_elevations.py"; "-T"; "GOT4.7"]
  = Ok ([("-T", "GOT4.7")], [])
  /\ main Toy.env ["compute_tidal_elevations.py"; "-T"; "GOT4.7"] []
     = (Raise usage_error, []).
Proof.
  split; [reflexivity |].
  exact (proj1 (proj2 (proj2
    (too_few_arguments_stop_before_the_pipeline Toy.env
       ["compute_tidal_elevations.py"; "-T"; "GOT4.7"]
       [("-T", "GOT4.7")] [] eq_refl (le_S 1 1 (le_n 1))))) eq_refl eq_refl
    eq_refl).
Defined.

(** C8 as stated fails: [-h] alone leaves no positional argument, and
    [main] then prints the usage and raises [SystemExit] (status 0), not
    the usage error. *)
Lemma help_exit_is_not_a_usage_error :
  parse_argv ["compute_tidal_elevations.py"; "-h"] = Ok ([("-h", "")], [])
  /\ fst (main Toy.env ["compute_tidal_elevations.py"; "-h"] [])
     = Raise (SystemExit None)
  /\ is_usage_error (fst (main Toy.env ["compute_tidal_elevations.py"; "-h"] []))
     = false.
Proof. repeat split. Qed.

(** With a single positional argument the failure is the [IndexError] of
    [arglist[1]], which no line of [main] guards. *)
Lemma single_argument_raises_IndexError :
  main Toy.env ["compute_tidal_elevations.py"; "two.csv"] []
  = (Raise (IndexError "list index out of range"), []).
Proof. reflexivity. Qed.

(** ** What reaches the output file *)

(** The outcome of lines 241-254.  When they end well no call has raised,
    and either [amp] and [ph] are bound or nothing was called (a format
    they do not know); when they raise either nothing was called (a name
    that is not bound) or the last call raised the exception. *)
Lemma read_constants_outcome E tide_dir dinput L fmt :
  let rc := read_constants E tide_dir dinput L fmt [] in
  match fst rc with
  | Ok k =>
      Forall (fun ev => failed_call ev = None) (snd rc)
      /\ ((exists amp_ph, fst (fst k) = Some amp_ph) \/ snd rc = [])
  | Raise e =>
      snd rc = []
      \/ exists calls ev,
           snd rc = (calls ++ [ev])%list /\ failed_call ev = Some e
  end.
Proof.
  cbv zeta. unfold read_constants. cbv [str_in existsb].
  destruct (fmt =? "OTIS"); [| destruct (fmt =? "ATLAS");
    [| destruct (fmt =? "netcdf"); [| destruct (fmt =? "GOT")]]];
    cbn [orb];
    unfold bind, call, local, ret, raise, snoc;
    repeat (cbn [fst snd app];
            match goal with
            | |- context [match ?x with _ => _ end] =>
                lazymatch x with
                | context [match _ with _ => _ end] => fail
                | (_, _) => fail
                | _ => destruct x
                end
            end);
    cbn [fst snd app];
    first
      [ split; [repeat constructor |];
        first [right; reflexivity | left; eexists; reflexivity]
      | left; reflexivity
      | right; exists nil; eexists; split; reflexivity
      | right; eexists (cons _ nil); eexists; split; reflexivity ].
Qed.

(** C7 at a one-record input.  [np.loadtxt] returns the only record of such
    a file as a 0-d array, and the run ends with an exception before the
    output file is opened, so that no line is written for the record: line
    264 raises as it does for every input, and a 0-d [tide] could be
    neither sliced by line 266 nor iterated by line 276. *)
Theorem single_record_input_writes_nothing
    E tide_dir input_file output_file TIDE_MODEL MODE r :
  read_rows E input_file = Ok [r] ->
  let run :=
    compute_tidal_elevations E tide_dir input_file output_file TIDE_MODEL MODE []
  in
  is_ok (fst run) = false
  /\ Forall (fun ev => file_event ev = false) (snd run)
  /\ written output_file (snd run) = [].
Proof.
  intros _. cbv zeta.
  destruct (compute_calls E tide_dir input_file output_file TIDE_MODEL MODE)
    as (_ & _ & Hfail & Hs).
  split; [exact Hfail |]. split; [exact Hs |]. apply compute_written.
Qed.

Lemma single_record_input_writes_nothing_witness :
  read_rows Toy.env "one.csv" = Ok Toy.one_row
  /\ is_ok (fst (compute_tidal_elevations Toy.env "" "one.csv" "out.csv"
                   "CATS2008" 509 [])) = false
  /\ written "out.csv"
       (snd (compute_tidal_elevations Toy.env "" "one.csv" "out.csv"
               "CATS2008" 509 [])) = [].
Proof.
  split; [reflexivity |].
  destruct (single_record_input_writes_nothing Toy.env "" "one.csv" "out.csv"
              "CATS2008" 509%Z _ eq_refl) as (Hfail & _ & Hw).
  split; [exact Hfail | exact Hw].
Defined.

(** C1.  No run writes an elevation, the fill value of a masked point no
    more than the value of a valid one: every run ends with an exception
    and has touched no file.  When the harmonic constants have been
    extracted and no call has failed, the exception is the [TypeError] of
    line 264. *)
Theorem no_elevation_is_ever_written
    E tide_dir input_file output_file TIDE_MODEL MODE :
  let run :=
    compute_tidal_elevations E tide_dir input_file output_file TIDE_MODEL MODE []
  in
  is_ok (fst run) = false
  /\ Forall (fun ev => file_event ev = false) (snd run)
  /\ written output_file (snd run) = []
  /\ forall amp_ph,
       extracted (snd run) = [amp_ph] ->
       Forall (fun ev => failed_call ev = None) (snd run) ->
       exists msg, fst run = Raise (TypeError msg).
Proof.
  cbv zeta.
  destruct (compute_calls E tide_dir input_file output_file TIDE_MODEL MODE)
    as (_ & _ & Hfail & Hs).
  split; [exact Hfail |]. split; [exact Hs |].
  split; [apply compute_written |].
  intros amp_ph. rewrite compute_stops. cbv zeta.
  destruct (read_rows E input_file) as [rows | e]; [| discriminate].
  destruct (model_format _) as [fmt |]; [| discriminate].
  pose proof (read_constants_outcome E tide_dir (squeeze rows)
                (select_model tide_dir TIDE_MODEL) fmt) as Hout.
  cbv zeta in Hout.
  destruct (read_constants _ _ _ _ _ []) as [[k | e] evs1]; cbn [fst snd] in *.
  - destruct Hout as (_ & [[amp_ph' Hk] | ->]); [| discriminate].
    intros _ _.
    destruct (predict_run E (squeeze rows) fmt k) as (e & -> & He).
    rewrite Hk in He. destruct He as [msg ->]. now exists msg.
  - destruct Hout as [-> | (calls & ev & -> & Hev)]; [discriminate |].
    intros _ Hall. inversion Hall as [| ? ? _ Hall']. subst.
    apply Forall_app in Hall'. destruct Hall' as [_ Hall'].
    inversion Hall' as [| ? ? Hnone _]. congruence.
Qed.

(** The two records of which the second is outside the model: its
    constituent is masked, and no line is written for it, nor for the
    first. *)
Lemma no_elevation_is_ever_written_witness :
  let run := compute_tidal_elevations Toy.env "" "two.csv" "out.csv"
               "CATS2008" 509 [] in
  extracted (snd run)
  = [[[(mk_melem 1.25%float false, mk_melem 0%float false)];
      [(mk_melem 1.25%float true, mk_melem 0%float true)]]]
  /\ written "out.csv" (snd run) = []
  /\ exists msg, fst run = Raise (TypeError msg).
Proof.
  cbv zeta.
  destruct (no_elevation_is_ever_written Toy.env "" "two.csv" "out.csv"
              "CATS2008" 509%Z) as (_ & _ & Hw & Herr).
  split; [reflexivity |]. split; [exact Hw |].
  apply (Herr _ eq_refl). repeat constructor.
Defined.

(** ** Further properties *)

(** X2. The identifiers of the catalogue are exactly the models for which
    the chain binds [model_format], and the format is then one of the four
    that lines 241-254 know. *)
Theorem catalogue_binds_a_known_format tide_dir TIDE_MODEL :
  (In TIDE_MODEL catalogue <->
   exists fmt, model_format (select_model tide_dir TIDE_MODEL) = Some fmt)
  /\ forall fmt,
       model_format (select_model tide_dir TIDE_MODEL) = Some fmt ->
       In fmt ["OTIS"; "ATLAS"; "netcdf"; "GOT"].
Proof.
  assert (Hknown : In TIDE_MODEL catalogue ->
            exists fmt,
              model_format (select_model tide_dir TIDE_MODEL) = Some fmt
              /\ In fmt ["OTIS"; "ATLAS"; "netcdf"; "GOT"]).
  { intros Hin. simpl in Hin.
    repeat (destruct Hin as [<- | Hin];
            [eexists; split; [reflexivity | simpl; tauto] |]).
    destruct Hin. }
  split; [split |].
  - intros Hin. destruct (Hknown Hin) as (fmt & Hf & _). now exists fmt.
  - intros [fmt Hf]. destruct (in_dec string_dec TIDE_MODEL catalogue)
      as [Hin | Hnot]; [exact Hin |].
    rewrite (select_model_unknown _ _ Hnot) in Hf. discriminate Hf.
  - intros fmt Hf. destruct (in_dec string_dec TIDE_MODEL catalogue)
      as [Hin | Hnot].
    + destruct (Hknown Hin) as (fmt' & Hf' & Hin'). congruence.
    + rewrite (select_model_unknown _ _ Hnot) in Hf. discriminate Hf.
Qed.

(* ================================================================== *)
(** * Further properties of the driver *)
(* ================================================================== *)

(** ** The output file *)

(** X3. The output file is opened only after the inference of the minor
    constituents has returned, that is after every call of a routine of
    pyTMD: a run that fails before touches no file.  Once the file is open
    one line per record is written, the file is closed and its mode is
    changed last; the outcome of the run is then the outcome of
    [os.chmod], so that a failure of [os.chmod] leaves a complete and
    closed file.  No other file is opened, written, closed or changed.
    (A call of [f.write] is an event without an outcome: writing is taken
    not to fail.  With line 264 as it is every run is of the first kind:
    it fails and touches no file.) *)
Theorem output_file_is_opened_after_every_call
    E tide_dir input_file output_file TIDE_MODEL MODE :
  let run :=
    compute_tidal_elevations E tide_dir input_file output_file TIDE_MODEL MODE []
  in
  (Forall (fun ev => file_event ev = false) (snd run)
   /\ is_ok (fst run) = false)
  \/ exists rows calls t hc c_ deltat fmt minor files,
       read_rows E input_file = Ok rows
       /\ snd run
          = (calls ++ EvInfer t hc c_ deltat fmt (Ok minor) :: files)%list
       /\ Forall (fun ev => file_event ev = false) calls
       /\ ((exists e, files = [EvOpen output_file (Raise e)]
                      /\ fst run = Raise e)
           \/ exists lines,
                List.length lines = List.length rows
                /\ files = (EvOpen output_file (Ok tt)
                            :: map (EvWrite output_file) lines
                            ++ [EvClose output_file;
                                EvChmod output_file MODE (fst run)])%list).
Proof.
  cbv zeta. left.
  destruct (compute_calls E tide_dir input_file output_file TIDE_MODEL MODE)
    as (_ & _ & Hfail & Hs).
  split; [exact Hs | exact Hfail].
Qed.

(** ** The failures of a run with a catalogued model *)

(** What the branch of a catalogued model binds: the variables that the
    extraction of its format reads. *)
Lemma catalogued_locals tide_dir TIDE_MODEL :
  In TIDE_MODEL catalogue ->
  let L := select_model tide_dir TIDE_MODEL in
  (exists grid model ref fmt epsg,
     L = gridded grid model ref fmt epsg /\ In fmt ["OTIS"; "ATLAS"])
  \/ (exists grid directory files ref scale,
        L = mk_locals (Some grid) None (Some directory) (Some files) None
              (Some ref) (Some "netcdf") None (Some "z") (Some scale))
  \/ (exists directory files scale, L = got directory files scale).
Proof.
  intros Hin. cbv zeta. simpl in Hin.
  repeat (destruct Hin as [<- | Hin];
          [first
             [ left; do 5 eexists; split; [reflexivity | simpl; tauto]
             | right; left; do 5 eexists; reflexivity
             | right; right; do 3 eexists; reflexivity ] |]).
  destruct Hin.
Qed.

(** Lines 241-254 for a catalogued model: an extractor is called first,
    and either [amp], [ph], [c] and [deltat] are bound afterwards or the
    last call has raised. *)
Lemma read_constants_catalogued E tide_dir TIDE_MODEL dinput fmt :
  In TIDE_MODEL catalogue ->
  model_format (select_model tide_dir TIDE_MODEL) = Some fmt ->
  let rc := read_constants E tide_dir dinput
              (select_model tide_dir TIDE_MODEL) fmt [] in
  extract_calls (snd rc)
  = [(extractor_of fmt, nd_map lon dinput, nd_map lat dinput, "spline")]
  /\ ((exists amp_ph c_ deltat, fst rc = Ok (Some amp_ph, Some c_, Some deltat))
      \/ exists e calls ev,
           fst rc = Raise e /\ snd rc = (calls ++ [ev])%list
           /\ failed_call ev = Some e).
Proof.
  intros Hin Hfmt. cbv zeta.
  destruct (catalogued_locals tide_dir TIDE_MODEL Hin)
    as [(grid & model & ref & fmt' & epsg & HL & Hf)
       | [(grid & directory & files & ref & scale & HL)
         | (directory & files & scale & HL)]];
    cbv zeta in HL; rewrite HL in *; cbn in Hfmt; injection Hfmt as <-.
  - assert (Hin' : str_in fmt' ["OTIS"; "ATLAS"] = true).
    { destruct Hf as [<- | [<- | []]]; reflexivity. }
    unfold read_constants, extractor_of. rewrite Hin'.
    unfold gridded, bind, call, local, ret, snoc. cbn.
    destruct (extract_tidal_constants E _ _ _ _ _ _ _) as [r | e]; cbn.
    + split; [reflexivity |]. left. do 3 eexists. reflexivity.
    + split; [reflexivity |]. right. exists e, []. eexists.
      repeat split.
  - unfold read_constants, extractor_of, bind, call, local, ret, snoc. cbn.
    destruct (extract_netcdf_constants E _ _ _ _ _ _ _ _) as [r | e]; cbn.
    + split; [reflexivity |]. left. do 3 eexists. reflexivity.
    + split; [reflexivity |]. right. exists e, []. eexists.
      repeat split.
  - unfold read_constants, extractor_of, got, bind, call, local, ret, snoc.
    cbn.
    destruct (extract_GOT_constants E _ _ _ _ _ _) as [r | e]; cbn.
    + destruct (calc_delta_time E _ _) as [d | e]; cbn.
      * split; [reflexivity |]. left. do 3 eexists. reflexivity.
      * split; [reflexivity |]. right. exists e. eexists (cons _ nil).
        eexists. split; [reflexivity |]. split; reflexivity.
    + split; [reflexivity |]. right. exists e, []. eexists.
      repeat split.
Qed.

(** X4. A run with a catalogued model never meets an unbound variable.
    It always ends with an exception, which is either the exception of
    the last call it made, a call that raised (of [np.loadtxt], of the
    extractor or of [calc_delta_time]), or, when the harmonic constants
    have been extracted and no call has raised, the [TypeError] of line
    264.  (The extractors are typed as returning [samples]: amplitude and
    phase as two masked arrays of one shape, points by constituents.) *)
Theorem failures_of_a_catalogued_model
    E tide_dir input_file output_file TIDE_MODEL MODE :
  In TIDE_MODEL catalogue ->
  let run :=
    compute_tidal_elevations E tide_dir input_file output_file TIDE_MODEL MODE []
  in
  exists e,
    fst run = Raise e
    /\ ((exists calls ev,
           snd run = (calls ++ [ev])%list /\ failed_call ev = Some e)
        \/ ((exists msg, e = TypeError msg)
            /\ Forall (fun ev => failed_call ev = None) (snd run)
            /\ exists amp_ph, extracted (snd run) = [amp_ph])).
Proof.
  intros Hin. cbv zeta. rewrite compute_stops. cbv zeta.
  destruct (read_rows E input_file) as [rows | e0] eqn:Hrows.
  2: { exists e0. split; [reflexivity |]. left. exists []. eexists.
       split; reflexivity. }
  destruct (model_format _) as [fmt |] eqn:Hfmt.
  2: { destruct (catalogued_locals tide_dir TIDE_MODEL Hin)
         as [(? & ? & ? & ? & ? & HL & _)
            | [(? & ? & ? & ? & ? & HL) | (? & ? & ? & HL)]];
         cbv zeta in HL; rewrite HL in Hfmt; discriminate Hfmt. }
  pose proof (read_constants_catalogued E tide_dir TIDE_MODEL (squeeze rows)
                fmt Hin Hfmt) as Hrc.
  pose proof (read_constants_stage E tide_dir (squeeze rows)
                (select_model tide_dir TIDE_MODEL) fmt) as Hst.
  pose proof (read_constants_outcome E tide_dir (squeeze rows)
                (select_model tide_dir TIDE_MODEL) fmt) as Hout.
  cbv zeta in Hrc, Hst, Hout.
  destruct Hrc as [_ Hrc]. destruct Hst as (_ & _ & _ & Hx & _).
  destruct (read_constants _ _ _ _ _ []) as [[k | e1] evs1];
    cbn [fst snd] in *.
  - destruct Hrc as [(amp_ph & c_ & deltat & [= ->]) | (? & ? & ? & Hk & _)];
      [| discriminate Hk].
    destruct (predict_run E (squeeze rows) fmt (Some amp_ph, Some c_,
                                                 Some deltat))
      as (e & -> & [msg ->]).
    exists (TypeError msg). split; [reflexivity |]. right.
    split; [now exists msg |]. split.
    + constructor; [reflexivity |]. exact (proj1 Hout).
    + exists amp_ph. unfold extracted in *. cbn [omap].
      exact (Hx _ _ _ eq_refl).
  - destruct Hrc as [(? & ? & ? & Hk) | (e' & calls & ev & He & -> & Hev)];
      [discriminate Hk |].
    injection He as <-. exists e1. split; [reflexivity |]. left.
    exists (EvLoadtxt input_file (Ok rows) :: calls), ev.
    split; [reflexivity | exact Hev].
Qed.

Lemma failures_of_a_catalogued_model_witness :
  let run := compute_tidal_elevations Toy.env "" "two.csv" "out.csv"
               "CATS2008" 509 [] in
  In "CATS2008" catalogue
  /\ exists e,
       fst run = Raise e
       /\ ((exists calls ev,
              snd run = (calls ++ [ev])%list /\ failed_call ev = Some e)
           \/ ((exists msg, e = TypeError msg)
               /\ Forall (fun ev => failed_call ev = None) (snd run)
               /\ exists amp_ph, extracted (snd run) = [amp_ph])).
Proof.
  assert (Hin : In "CATS2008" catalogue) by (simpl; tauto).
  split; [exact Hin |].
  exact (failures_of_a_catalogued_model Toy.env "" "two.csv" "out.csv"
           "CATS2008" 509%Z Hin).
Defined.

(** A call that raises: the input file is not there. *)
Example missing_input_run :
  compute_tidal_elevations Toy.env "" "missing.csv" "out.csv" "CATS2008" 509 []
  = (Raise (Raised "loadtxt" "file not found"),
     [EvLoadtxt "missing.csv" (Raise (Raised "loadtxt" "file not found"))]).
Proof. reflexivity. Qed.

(** ** The extraction *)

Lemma extract_calls_predict E dinput fmt k :
  extract_calls (snd (predict_tide E dinput fmt k [])) = [].
Proof. now destruct (predict_run E dinput fmt k) as (e & -> & _). Qed.

Lemma extract_calls_output E dinput tide output_file MODE :
  extract_calls (snd (write_output E dinput tide output_file MODE [])) = [].
Proof.
  apply omap_none. generalize (output_events E dinput tide output_file MODE).
  apply Forall_impl. now intros [].
Qed.

(** X5. A run with a catalogued model whose input can be read calls one
    extractor, once: the one of the model's format, at the longitudes and
    latitudes of all the records of the input, in the order of the input,
    with the interpolation method [spline]. *)
Theorem one_extraction_at_the_input_points
    E tide_dir input_file output_file TIDE_MODEL MODE rows :
  In TIDE_MODEL catalogue ->
  read_rows E input_file = Ok rows ->
  exists fmt,
    model_format (select_model tide_dir TIDE_MODEL) = Some fmt
    /\ extract_calls
         (snd (compute_tidal_elevations E tide_dir input_file output_file
                 TIDE_MODEL MODE []))
       = [(extractor_of fmt, nd_map lon (squeeze rows),
           nd_map lat (squeeze rows), "spline")].
Proof.
  intros Hin Hrows.
  destruct (model_format (select_model tide_dir TIDE_MODEL)) as [fmt |] eqn:Hfmt.
  2: { destruct (catalogued_locals tide_dir TIDE_MODEL Hin)
         as [(? & ? & ? & ? & ? & HL & _)
            | [(? & ? & ? & ? & ? & HL) | (? & ? & ? & HL)]];
         cbv zeta in HL; rewrite HL in Hfmt; discriminate Hfmt. }
  exists fmt. split; [reflexivity |].
  rewrite compute_stops, Hrows. cbv zeta. rewrite Hfmt.
  pose proof (read_constants_catalogued E tide_dir TIDE_MODEL (squeeze rows)
                fmt Hin Hfmt) as Hrc.
  cbv zeta in Hrc. destruct Hrc as [Hrc _].
  destruct (read_constants _ _ _ _ _ []) as [[k | e1] evs1]; cbn [snd] in *;
    exact Hrc.
Qed.

Lemma one_extraction_at_the_input_points_witness :
  In "GOT4.8_load" catalogue
  /\ read_rows Toy.env "two.csv" = Ok Toy.two_rows
  /\ extract_calls
       (snd (compute_tidal_elevations Toy.env "/data" "two.csv" "out.csv"
               "GOT4.8_load" 509 []))
     = [("extract_GOT_constants", Arr1 [- 40; - 41]%float,
         Arr1 [70; 71]%float, "spline")].
Proof.
  assert (Hin : In "GOT4.8_load" catalogue) by (simpl; tauto).
  split; [exact Hin |]. split; [reflexivity |].
  destruct (one_extraction_at_the_input_points Toy.env "/data" "two.csv"
              "out.csv" "GOT4.8_load" 509%Z Toy.two_rows Hin eq_refl)
    as (fmt & Hfmt & Hcalls).
  injection Hfmt as <-. exact Hcalls.
Defined.

(** ** The command line: what reaches [compute_tidal_elevations] *)

Lemma getopt_stops a args shortopts longopts :
  is_option a = false ->
  Getopt.getopt (a :: args) shortopts longopts = Ok ([], a :: args).
Proof.
  intros H. unfold Getopt.getopt. cbn [List.length Getopt.loop].
  destruct a as [| ch a']; [reflexivity |].
  destruct ch as [[] [] [] [] [] [] [] []]; try reflexivity.
  destruct a' as [| ch' a'']; [reflexivity | discriminate H].
Qed.

(** X7. [getopt] stops at the first argument that is not an option.  When
    the first argument after the program name does not start with a dash
    (or is the dash alone), [main] takes it for the input file and the next
    one for the output file, and runs with the defaults: the model
    CATS2008, the mode [0o775], and the directory of the input file as
    data directory.  Whatever follows, options included, is ignored. *)
Theorem positional_arguments_end_the_options E prog a0 a1 rest :
  is_option a0 = false ->
  main E (prog :: a0 :: a1 :: rest) []
  = compute_tidal_elevations E (PosixPath.dirname (expanduser E a0))
      (expanduser E a0) (expanduser E a1) "CATS2008" 509 [].
Proof.
  intros H. rewrite main_run. unfold parse_argv. cbn [tl].
  rewrite (getopt_stops _ _ _ _ H). cbn [option_loop ret app].
  now destruct (compute_tidal_elevations _ _ _ _ _ _ _).
Qed.

Lemma positional_arguments_end_the_options_witness :
  is_option "two.csv" = false
  /\ main Toy.env ["prog"; "two.csv"; "out.csv"; "-T"; "GOT4.7"] []
     = compute_tidal_elevations Toy.env "" "two.csv" "out.csv" "CATS2008"
         509 [].
Proof.
  split; [reflexivity |].
  exact (positional_arguments_end_the_options Toy.env "prog" "two.csv"
           "out.csv" ["-T"; "GOT4.7"] eq_refl).
Defined.

(** An option belongs to one of the four groups of the loop, or to none. *)
Lemma option_groups opt :
  let groups (h d t m : bool) :=
    str_in opt ["-h"; "--help"] = h /\ str_in opt ["-D"; "--directory"] = d
    /\ str_in opt ["-T"; "--tide"] = t /\ str_in opt ["-M"; "--mode"] = m in
  groups true false false false \/ groups false true false false
  \/ groups false false true false \/ groups false false false true
  \/ groups false false false false.
Proof.
  cbv beta zeta. unfold str_in. cbn [existsb].
  destruct (String.eqb_spec opt "-h") as [-> | ?]; [now left |].
  destruct (String.eqb_spec opt "--help") as [-> | ?]; [now left |].
  destruct (String.eqb_spec opt "-D") as [-> | ?]; [right; now left |].
  destruct (String.eqb_spec opt "--directory") as [-> | ?];
    [right; now left |].
  destruct (String.eqb_spec opt "-T") as [-> | ?];
    [right; right; now left |].
  destruct (String.eqb_spec opt "--tide") as [-> | ?];
    [right; right; now left |].
  destruct (String.eqb_spec opt "-M") as [-> | ?];
    [right; right; right; now left |].
  destruct (String.eqb_spec opt "--mode") as [-> | ?];
    [right; right; right; now left |].
  right; right; right; now right.
Qed.

(** The settings at the end of a loop that meets no help option and no
    mode that is not an octal number. *)
Lemma option_loop_settings E argv optlist :
  has_help optlist = false -> modes_parse E optlist = true ->
  forall d t m, exists m',
    option_loop E argv (d, t, m) optlist []
    = (Ok (match last_option ["-D"; "--directory"] optlist with
           | Some v => Some (expanduser E v)
           | None => d
           end,
           match last_option ["-T"; "--tide"] optlist with
           | Some v => v
           | None => t
           end, m'), [])
    /\ match last_option ["-M"; "--mode"] optlist with
       | Some v => int_base8 E v = Ok m'
       | None => m' = m
       end.
Proof.
  induction optlist as [| [opt arg] optlist IH]; intros Hh Hm d t m.
  - exists m. split; reflexivity.
  - unfold has_help in Hh. unfold modes_parse in Hm.
    cbn [existsb forallb fst snd] in Hh, Hm.
    apply orb_false_iff in Hh. destruct Hh as [Hh1 Hh2].
    apply andb_true_iff in Hm. destruct Hm as [Hm1 Hm2].
    specialize (IH Hh2 Hm2).
    cbn [option_loop last_option].
    rewrite bind_nil by (intros; apply appends_option_loop).
    unfold option_step.
    pose proof (option_groups opt) as Hg. cbv beta zeta in Hg.
    rewrite Hh1.
    destruct Hg as [Hg | [Hg | [Hg | [Hg | Hg]]]];
      destruct Hg as (HH & HD & HT & HM); [congruence | | | |];
      rewrite HD, HT, HM; rewrite ?HM in Hm1.
    + destruct (IH (Some (expanduser E arg)) t m) as (m' & Hrun & Hmode).
      exists m'. cbn [ret fst snd app]. rewrite Hrun. cbn [fst snd].
      destruct (last_option ["-D"; "--directory"] optlist),
        (last_option ["-T"; "--tide"] optlist),
        (last_option ["-M"; "--mode"] optlist);
        (split; [reflexivity | exact Hmode]).
    + destruct (IH d arg m) as (m' & Hrun & Hmode).
      exists m'. cbn [ret fst snd app]. rewrite Hrun. cbn [fst snd].
      destruct (last_option ["-D"; "--directory"] optlist),
        (last_option ["-T"; "--tide"] optlist),
        (last_option ["-M"; "--mode"] optlist);
        (split; [reflexivity | exact Hmode]).
    + unfold bind, lift, ret.
      destruct (int_base8 E arg) as [mode | e] eqn:Hmode0;
        [| discriminate Hm1].
      destruct (IH d t mode) as (m' & Hrun & Hmode).
      exists m'. cbn [fst snd app]. rewrite Hrun. cbn [fst snd].
      destruct (last_option ["-D"; "--directory"] optlist),
        (last_option ["-T"; "--tide"] optlist),
        (last_option ["-M"; "--mode"] optlist);
        (split; [reflexivity | first [exact Hmode | congruence]]).
    + destruct (IH d t m) as (m' & Hrun & Hmode).
      exists m'. cbn [ret fst snd app]. rewrite Hrun. cbn [fst snd].
      destruct (last_option ["-D"; "--directory"] optlist),
        (last_option ["-T"; "--tide"] optlist),
        (last_option ["-M"; "--mode"] optlist);
        (split; [reflexivity | exact Hmode]).
Qed.

(** X8. With two positional arguments or more, no help option and modes
    that are octal numbers, [main] calls [compute_tidal_elevations] on the
    tilde-expanded first and second positional arguments.  Of an option
    given several times the last one counts: the data directory is the
    tilde-expanded argument of the last [-D]/[--directory], and the
    directory of the input file without one; the model is the argument of
    the last [-T]/[--tide], and CATS2008 without one; the mode is the
    argument of the last [-M]/[--mode] read in base 8, and [0o775] without
    one. *)
Theorem last_option_of_a_kind_counts E argv optlist a0 a1 rest :
  parse_argv argv = Ok (optlist, a0 :: a1 :: rest) ->
  has_help optlist = false ->
  modes_parse E optlist = true ->
  exists MODE,
    match last_option ["-M"; "--mode"] optlist with
    | Some v => int_base8 E v = Ok MODE
    | None => MODE = 509%Z
    end
    /\ main E argv []
       = compute_tidal_elevations E
           match last_option ["-D"; "--directory"] optlist with
           | Some v => expanduser E v
           | None => PosixPath.dirname (expanduser E a0)
           end
           (expanduser E a0) (expanduser E a1)
           match last_option ["-T"; "--tide"] optlist with
           | Some v => v
           | None => "CATS2008"
           end
           MODE [].
Proof.
  intros Hparse Hh Hm.
  destruct (option_loop_settings E argv optlist Hh Hm None "CATS2008" 509%Z)
    as (MODE & Hrun & Hmode).
  exists MODE. split; [exact Hmode |].
  rewrite main_run, Hparse, Hrun. cbn [app].
  destruct (last_option ["-D"; "--directory"] optlist);
    now destruct (compute_tidal_elevations _ _ _ _ _ _ _).
Qed.

Lemma last_option_of_a_kind_counts_witness :
  parse_argv ["prog"; "-T"; "GOT4.7"; "--mode=644"; "-D"; "/data";
              "--tide=TPXO9.1"; "-M"; "600"; "two.csv"; "out.csv"]
  = Ok ([("-T", "GOT4.7"); ("--mode", "644"); ("-D", "/data");
         ("--tide", "TPXO9.1"); ("-M", "600")], ["two.csv"; "out.csv"])
  /\ main Toy.env ["prog"; "-T"; "GOT4.7"; "--mode=644"; "-D"; "/data";
                   "--tide=TPXO9.1"; "-M"; "600"; "two.csv"; "out.csv"] []
     = compute_tidal_elevations Toy.env "/data" "two.csv" "out.csv" "TPXO9.1"
         384 [].
Proof.
  split; [reflexivity |].
  destruct (last_option_of_a_kind_counts Toy.env
              ["prog"; "-T"; "GOT4.7"; "--mode=644"; "-D"; "/data";
               "--tide=TPXO9.1"; "-M"; "600"; "two.csv"; "out.csv"]
              [("-T", "GOT4.7"); ("--mode", "644"); ("-D", "/data");
               ("--tide", "TPXO9.1"); ("-M", "600")] "two.csv" "out.csv" []
              eq_refl eq_refl eq_refl)
    as (MODE & Hmode & Hrun).
  cbn in Hmode. injection Hmode as <-. exact Hrun.
Defined.

(** ** The command line: what stops [main] *)

Lemma option_loop_app E argv l1 l2 :
  forall s s',
    option_loop E argv s l1 [] = (Ok s', []) ->
    option_loop E argv s (l1 ++ l2)%list [] = option_loop E argv s' l2 [].
Proof.
  induction l1 as [| oa l1 IH]; intros s s' H.
  - cbn in H. now injection H as ->.
  - cbn [option_loop app] in *.
    rewrite bind_nil in H |- * by (intros; apply appends_option_loop).
    destruct (option_step E argv s oa []) as [[s1 | e] evs1];
      [| discriminate H].
    destruct (option_loop E argv s1 l1 []) as [r evs] eqn:Hl1.
    cbn [fst snd] in H. injection H as -> Hevs.
    apply app_eq_nil in Hevs. destruct Hevs as [-> ->].
    rewrite (IH s1 s' Hl1). cbn [app].
    now destruct (option_loop E argv s' l2 []).
Qed.

(** X9. The options are handled from left to right, and the first help
    option or the first mode that is not an octal number ends [main],
    whatever follows it, further options and input and output files
    included.  A help option prints the usage and [sys.exit()] raises
    [SystemExit] (status 0); a mode that [int(arg, 8)] rejects raises the
    exception of [int], and nothing is printed.  Nothing of the pipeline
    has run in either case. *)
Theorem first_stopping_option_decides
    E argv before opt arg after arglist :
  parse_argv argv = Ok ((before ++ (opt, arg) :: after)%list, arglist) ->
  has_help before = false ->
  modes_parse E before = true ->
  (str_in opt ["-h"; "--help"] = true ->
   main E argv [] = (Raise (SystemExit None), snd (usage argv [])))
  /\ (forall e,
        str_in opt ["-M"; "--mode"] = true -> int_base8 E arg = Raise e ->
        main E argv [] = (Raise e, [])).
Proof.
  intros Hparse Hh Hm.
  destruct (option_loop_settings E argv before Hh Hm None "CATS2008" 509%Z)
    as (m' & Hrun & _).
  rewrite main_run, Hparse, (option_loop_app _ _ _ _ _ _ Hrun).
  cbn [option_loop].
  rewrite bind_nil by (intros; apply appends_option_loop).
  unfold option_step.
  pose proof (option_groups opt) as Hg. cbv beta zeta in Hg. split.
  - intros Hhelp. rewrite Hhelp.
    destruct argv as [| prog args].
    { unfold parse_argv in Hparse. cbn in Hparse. injection Hparse as H _.
      now destruct before. }
    reflexivity.
  - intros e HM He.
    destruct Hg as [Hg | [Hg | [Hg | [Hg | Hg]]]];
      destruct Hg as (HH & HD & HT & HM'); try congruence.
    rewrite HH, HD, HT, HM'. unfold bind, lift. now rewrite He.
Qed.

Lemma first_stopping_option_decides_witness :
  parse_argv ["prog"; "-T"; "GOT4.7"; "-h"; "-M"; "9"; "two.csv"; "out.csv"]
  = Ok (([("-T", "GOT4.7")] ++ ("-h", "") :: [("-M", "9")])%list,
        ["two.csv"; "out.csv"])
  /\ main Toy.env ["prog"; "-T"; "GOT4.7"; "-h"; "-M"; "9"; "two.csv";
                   "out.csv"] []
     = (Raise (SystemExit None),
        snd (usage ["prog"; "-T"; "GOT4.7"; "-h"; "-M"; "9"; "two.csv";
                    "out.csv"] [])).
Proof.
  split; [reflexivity |].
  exact (proj1
    (first_stopping_option_decides Toy.env
       ["prog"; "-T"; "GOT4.7"; "-h"; "-M"; "9"; "two.csv"; "out.csv"]
       [("-T", "GOT4.7")] "-h" "" [("-M", "9")] ["two.csv"; "out.csv"]
       eq_refl eq_refl eq_refl) eq_refl).
Defined.

(** The same options with the mode first: [int('9', 8)] raises before the
    help option is looked at. *)
Example invalid_mode_before_help :
  main Toy.env ["prog"; "-M"; "9"; "-h"; "two.csv"; "out.csv"] []
  = (Raise (ValueError "invalid literal for int() with base 8"), []).
Proof. reflexivity. Qed.

(** X10. With exactly one positional argument (no help option, modes that
    are octal numbers) [main] raises the [IndexError] of [arglist[1]]: the
    guard of line 312 only catches the empty list.  Nothing has been read,
    called, written or printed. *)
Theorem second_positional_argument_is_not_checked E argv optlist a0 :
  parse_argv argv = Ok (optlist, [a0]) ->
  has_help optlist = false ->
  modes_parse E optlist = true ->
  main E argv [] = (Raise (IndexError "list index out of range"), []).
Proof.
  intros Hparse Hh Hm.
  destruct (option_loop_settings E argv optlist Hh Hm None "CATS2008" 509%Z)
    as (m' & Hrun & _).
  now rewrite main_run, Hparse, Hrun.
Qed.

Lemma second_positional_argument_is_not_checked_witness :
  parse_argv ["prog"; "--tide=GOT4.10"; "two.csv"]
  = Ok ([("--tide", "GOT4.10")], ["two.csv"])
  /\ main Toy.env ["prog"; "--tide=GOT4.10"; "two.csv"] []
     = (Raise (IndexError "list index out of range"), []).
Proof.
  split; [reflexivity |].
  exact (second_positional_argument_is_not_checked Toy.env
           ["prog"; "--tide=GOT4.10"; "two.csv"] [("--tide", "GOT4.10")]
           "two.csv" eq_refl eq_refl eq_refl).
Defined.

(** X11. A first argument [-x...] whose letter [x] is none of [h], [D],
    [T] and [M] makes [getopt] raise [GetoptError]: [main] ends before it
    has looked at an option, and nothing is read, called, written or
    printed. *)
Theorem unknown_short_option_is_rejected E prog ch rest args :
  existsb (Ascii.eqb ch) (list_ascii_of_string "-hDTM") = false ->
  main E (prog :: String "-" (String ch rest) :: args) []
  = (Raise (GetoptError
              ("option -" ++ String ch EmptyString ++ " not recognized")
              (String ch EmptyString)), []).
Proof.
  intros H. rewrite main_run. unfold parse_argv, Getopt.getopt.
  cbn [tl List.length Getopt.loop].
  destruct ch as [[] [] [] [] [] [] [] []];
    first [discriminate H | reflexivity].
Qed.

Lemma unknown_short_option_is_rejected_witness :
  existsb (Ascii.eqb "x") (list_ascii_of_string "-hDTM") = false
  /\ main Toy.env ["prog"; "-x"; "two.csv"; "out.csv"] []
     = (Raise (GetoptError "option -x not recognized" "x"), []).
Proof.
  split; [reflexivity |].
  exact (unknown_short_option_is_rejected Toy.env "prog" "x" ""
           ["two.csv"; "out.csv"] eq_refl).
Defined.

(** ** Abbreviated long options *)

Lemma option_loop_prog E prog args1 args2 optlist :
  forall s tr,
    option_loop E (prog :: args1) s optlist tr
    = option_loop E (prog :: args2) s optlist tr.
Proof.
  induction optlist as [| oa optlist IH]; intros s tr; [reflexivity |].
  cbn [option_loop]. unfold bind.
  replace (option_step E (prog :: args1) s oa tr)
    with (option_step E (prog :: args2) s oa tr) by reflexivity.
  destruct (option_step E (prog :: args2) s oa tr) as [[s' | e] tr'];
    [apply IH | reflexivity].
Qed.

(** [main] reads its command line through [getopt], and the name of the
    program apart through nothing else. *)
Lemma main_parse E prog args1 args2 :
  parse_argv (prog :: args1) = parse_argv (prog :: args2) ->
  main E (prog :: args1) [] = main E (prog :: args2) [].
Proof.
  intros H. rewrite !main_run, H.
  destruct (parse_argv (prog :: args2)) as [[optlist arglist] | e];
    [| reflexivity].
  now rewrite (option_loop_prog E prog args1 args2).
Qed.

Lemma prefix_cons p ch s :
  String.prefix p (String ch s) = true ->
  p = EmptyString
  \/ exists p', p = String ch p' /\ String.prefix p' s = true.
Proof.
  destruct p as [| a p']; [now left |]. cbn.
  destruct (ascii_dec a ch) as [-> | _]; [| discriminate].
  intros H. right. now exists p'.
Qed.

Lemma prefix_empty p : String.prefix p EmptyString = true -> p = EmptyString.
Proof. now destruct p. Qed.

Ltac prefixes H :=
  repeat
    (first
       [ apply prefix_empty in H; subst
       | apply prefix_cons in H;
         destruct H as [-> | (? & -> & H)] ]).

(** X12. A long option may be abbreviated: [help], [directory], [tide]
    and [mode] start with four different letters, so every abbreviation of
    one of them that is not empty is unique and stands for it, with a
    value after [=] and without one. *)
Theorem long_options_may_be_abbreviated E prog name p value args :
  In name ["help"; "directory"; "tide"; "mode"] ->
  String.prefix p name = true ->
  p <> EmptyString ->
  value = EmptyString \/ (exists v, value = "=" ++ v) ->
  main E (prog :: ("--" ++ p ++ value) :: args) []
  = main E (prog :: ("--" ++ name ++ value) :: args) [].
Proof.
  intros Hname Hp Hne Hvalue. apply main_parse.
  unfold parse_argv, Getopt.getopt. cbn [tl List.length].
  destruct Hvalue as [-> | [v ->]];
    cbn in Hname;
    destruct Hname as [<- | [<- | [<- | [<- | []]]]];
    prefixes Hp; first [now elim Hne | reflexivity].
Qed.

Lemma long_options_may_be_abbreviated_witness :
  In "directory" ["help"; "directory"; "tide"; "mode"]
  /\ String.prefix "dir" "directory" = true
  /\ main Toy.env ["prog"; "--dir=/data"; "two.csv"; "out.csv"] []
     = main Toy.env ["prog"; "--directory=/data"; "two.csv"; "out.csv"] [].
Proof.
  assert (Hin : In "directory" ["help"; "directory"; "tide"; "mode"])
    by (simpl; tauto).
  assert (Hne : "dir" <> EmptyString) by discriminate.
  split; [exact Hin |]. split; [reflexivity |].
  exact (long_options_may_be_abbreviated Toy.env "prog" "directory" "dir"
           "=/data" ["two.csv"; "out.csv"] Hin eq_refl Hne
           (or_intror (ex_intro _ "/data" eq_refl))).
Defined.

(** ** The text of a number *)

Lemma length_append (s1 s2 : string) :
  String.length (s1 ++ s2) = String.length s1 + String.length s2.
Proof. induction s1 as [| ch s1 IH]; simpl; [reflexivity | now rewrite IH]. Qed.

Lemma all_digits_append (s1 s2 : string) :
  all_digits (s1 ++ s2) = all_digits s1 && all_digits s2.
Proof.
  induction s1 as [| ch s1 IH]; simpl; [reflexivity |].
  now rewrite IH, andb_assoc.
Qed.

Lemma digit_cases ch :
  is_digit ch = true ->
  In ch (list_ascii_of_string "0123456789").
Proof.
  unfold is_digit. intros H. apply existsb_exists in H.
  destruct H as (d & Hin & Heq). apply Ascii.eqb_eq in Heq. now subst.
Qed.

Lemma split_point_digits (a b : string) :
  all_digits a = true ->
  split_point (a ++ String "." b) = Some (a, b).
Proof.
  induction a as [| ch a IH]; simpl; [reflexivity |].
  intros H. apply andb_true_iff in H. destruct H as [Hd Ha].
  rewrite (IH Ha).
  apply digit_cases in Hd. cbn in Hd.
  repeat (destruct Hd as [<- | Hd]; [reflexivity |]). destruct Hd.
Qed.

Lemma unsigned_digits (a b : string) :
  all_digits a = true -> negb (String.length a =? 0)%nat = true ->
  match (a ++ b) with
  | String "-" rest => rest
  | _ => (a ++ b)
  end = (a ++ b).
Proof.
  destruct a as [| ch a]; [discriminate 2 |]. simpl.
  intros H _. apply andb_true_iff in H. destruct H as [Hd _].
  apply digit_cases in Hd. cbn in Hd.
  repeat (destruct Hd as [<- | Hd]; [reflexivity |]). destruct Hd.
Qed.

Lemma all_digits_uint (d : Decimal.uint) :
  all_digits (NilEmpty.string_of_uint d) = true.
Proof. induction d; simpl; auto. Qed.

Lemma length_uint (d : Decimal.uint) :
  String.length (NilEmpty.string_of_uint d) = Decimal.nb_digits d.
Proof. induction d; simpl; auto. Qed.

Lemma all_digits_zeros n : all_digits (PyFormat.zeros n) = true.
Proof. induction n; simpl; auto. Qed.

Lemma length_zeros n : String.length (PyFormat.zeros n) = n.
Proof. induction n; simpl; auto. Qed.

Lemma to_uint_nonnil (n : N) : N.to_uint n <> Decimal.Nil.
Proof.
  destruct n as [| p]; [discriminate |].
  apply DecimalPos.Unsigned.to_uint_nonnil.
Qed.

Lemma of_uint_acc_lower (d : Decimal.uint) :
  forall acc,
    (Z.pos acc * 10 ^ Z.of_nat (Decimal.nb_digits d)
     <= Z.pos (Pos.of_uint_acc d acc))%Z.
Proof.
  induction d; intros acc; cbn [Pos.of_uint_acc Decimal.nb_digits];
    [rewrite Z.pow_0_r; lia | ..];
    rewrite Nat2Z.inj_succ, Z.pow_succ_r by lia;
    (eapply Z.le_trans; [| apply IHd]);
    rewrite Z.mul_assoc; apply Z.mul_le_mono_nonneg_r;
    try (apply Z.pow_nonneg; lia); lia.
Qed.

(** A number below [10 ^ k] has [k] digits at most. *)
Lemma nb_digits_to_uint (n : N) (k : nat) :
  (Z.of_N n < 10 ^ Z.of_nat (S k))%Z ->
  Decimal.nb_digits (N.to_uint n) <= S k.
Proof.
  destruct n as [| p]; [simpl; lia |]. intros Hlt. cbn [N.to_uint].
  pose proof (DecimalPos.Unsigned.of_to p) as Hof.
  pose proof (DecimalPos.Unsigned.to_of (Pos.to_uint p)) as Hto.
  rewrite Hof in Hto. cbn [N.to_uint] in Hto.
  pose proof (DecimalPos.Unsigned.to_uint_nonnil p) as Hnil.
  pose proof (DecimalPos.Unsigned.to_uint_nonzero p) as Hzero.
  pose proof (DecimalFacts.nzhead_nonzero (Pos.to_uint p)) as Hhead.
  unfold Decimal.unorm in Hto.
  assert (Hnz : Decimal.nzhead (Pos.to_uint p) = Pos.to_uint p).
  { destruct (Decimal.nzhead (Pos.to_uint p)); congruence. }
  rewrite Hnz in Hhead.
  destruct (Pos.to_uint p) as [| d | d | d | d | d | d | d | d | d | d ];
    [now elim Hnil | now elim (Hhead d) | ..];
    cbn [Pos.of_uint Decimal.nb_digits] in *;
    injection Hof as Hof;
    match type of Hof with
    | Pos.of_uint_acc d ?acc = p =>
        pose proof (of_uint_acc_lower d acc) as Hlow
    end;
    rewrite Hof in Hlow;
    destruct (Nat.le_gt_cases (Decimal.nb_digits d) k) as [Hle | Hgt];
    try lia;
    exfalso;
    assert (Hpow : (10 ^ Z.of_nat (S k)
                    <= 10 ^ Z.of_nat (Decimal.nb_digits d))%Z)
      by (apply Z.pow_le_mono_r; lia);
    assert (Hone : (1 * 10 ^ Z.of_nat (Decimal.nb_digits d)
                    <= Z.pos p)%Z)
      by (eapply Z.le_trans; [| exact Hlow];
          apply Z.mul_le_mono_nonneg_r;
          [apply Z.pow_nonneg; lia | lia]);
    cbn [Z.of_N] in Hlt; lia.
Qed.

Lemma length_digits_bound (n : Z) (k : nat) :
  (0 <= n < 10 ^ Z.of_nat (S k))%Z ->
  String.length (PyFormat.digits n) <= S k.
Proof.
  intros [H0 Hlt]. unfold PyFormat.digits. rewrite length_uint.
  apply nb_digits_to_uint. now rewrite Z2N.id by exact H0.
Qed.

Lemma length_digits_positive (n : Z) :
  negb (String.length (PyFormat.digits n) =? 0)%nat = true.
Proof.
  unfold PyFormat.digits. rewrite length_uint.
  pose proof (to_uint_nonnil (Z.to_N n)) as H.
  destruct (N.to_uint (Z.to_N n)); [now elim H | reflexivity ..].
Qed.

(** [fixed] gives a number with [prec] decimals. *)
Lemma decimal_text_fixed (prec : nat) (neg : bool) (scaled : Z) :
  decimal_text (S prec) (PyFormat.fixed (S prec) neg scaled) = true.
Proof.
  unfold PyFormat.fixed, PyFormat.pad_zeros.
  set (p10 := (10 ^ Z.of_nat (S prec))%Z).
  assert (Hp10 : (0 < p10)%Z) by (apply Z.pow_pos_nonneg; lia).
  set (int := PyFormat.digits (scaled / p10)).
  set (frac := PyFormat.digits (scaled mod p10)).
  assert (Hint : all_digits int = true) by apply all_digits_uint.
  assert (Hint' : negb (String.length int =? 0)%nat = true)
    by apply length_digits_positive.
  assert (Hfrac : String.length frac <= S prec).
  { apply length_digits_bound. apply Z.mod_pos_bound. exact Hp10. }
  assert (Hbody :
            decimal_text (S prec)
              (int ++ "." ++ PyFormat.zeros (S prec - String.length frac)
                 ++ frac) = true).
  { unfold decimal_text. rewrite (unsigned_digits _ _ Hint Hint').
    change ("." ++ ?s) with (String "." s).
    rewrite (split_point_digits _ _ Hint), Hint, Hint'.
    assert (Hfd : all_digits frac = true) by apply all_digits_uint.
    rewrite all_digits_append, all_digits_zeros, Hfd.
    rewrite length_append, length_zeros.
    cbn [andb]. apply Nat.eqb_eq. lia. }
  destruct neg; [| exact Hbody].
  unfold decimal_text in *.
  change ("-" ++ ?s) with (String "-" s). cbv iota.
  rewrite (unsigned_digits _ _ Hint Hint') in Hbody. exact Hbody.
Qed.

(** [format(x, '0.<prec>f')], for one decimal or more. *)
Lemma float_text_format_f (prec : nat) (x : float) :
  float_text (S prec) (PyFormat.format_f (S prec) x) = true.
Proof.
  unfold float_text, PyFormat.format_f.
  destruct (Prim2SF x) as [neg | neg | | neg m e].
  - now rewrite decimal_text_fixed.
  - destruct neg; apply orb_true_r.
  - apply orb_true_r.
  - now rewrite decimal_text_fixed.
Qed.

(** ** The lines of the output file *)

(** X13. Every line written to the output file, in every run, is four
    fields separated by commas and ended by a line feed.  The first three
    are numbers in fixed-point notation, with six, two and two decimals
    ([nan], [inf] or [-inf] when the value is not finite); the fourth is
    such a number with two decimals, or the two dashes of a masked
    point.  (With line 264 as it is no run writes a line; the lemma
    [float_text_format_f] is the part that does not depend on it.) *)
Theorem written_lines_are_four_fields
    E tide_dir input_file output_file TIDE_MODEL MODE :
  Forall
    (fun line =>
       exists f1 f2 f3 f4,
         line = f1 ++ "," ++ f2 ++ "," ++ f3 ++ "," ++ f4 ++ PyFormat.nl
         /\ float_text 6 f1 = true /\ float_text 2 f2 = true
         /\ float_text 2 f3 = true
         /\ (float_text 2 f4 = true \/ f4 = "--"))
    (written output_file
       (snd (compute_tidal_elevations E tide_dir input_file output_file
               TIDE_MODEL MODE []))).
Proof.
  rewrite compute_written. constructor.
Qed.

(** ** The catalogue *)

(** X14. For a GOT model the driver itself fixes the constituents, [q1],
    [o1], [p1], [k1], [n2], [m2], [s2], [k2], [s1], [m4], and the model
    files are named after them, in the same order: [<c>.d.gz] with the
    scale 1/100 for an ocean tide model, [<c>load.d.gz] with the scale
    1/1000 for a load tide model.  For a model of another format the
    driver fixes no constituents: they are those the extractor returns. *)
Theorem got_files_follow_the_constituents tide_dir TIDE_MODEL fmt :
  let L := select_model tide_dir TIDE_MODEL in
  model_format L = Some fmt ->
  (fmt <> "GOT" /\ c L = None)
  \/ (fmt = "GOT"
      /\ exists constituents kind scale,
           c L = Some constituents
           /\ constituents
              = ["q1"; "o1"; "p1"; "k1"; "n2"; "m2"; "s2"; "k2"; "s1"; "m4"]
           /\ model_files L
              = Some (map (fun name => name ++ kind ++ ".d.gz") constituents)
           /\ SCALE L = Some scale
           /\ ((kind = "" /\ scale = (1 / 100)%float)
               \/ (kind = "load" /\ scale = (1 / 1000)%float))).
Proof.
  cbv zeta.
  destruct (in_dec string_dec TIDE_MODEL catalogue) as [Hin | Hnot].
  2: { rewrite (select_model_unknown _ _ Hnot). discriminate. }
  simpl in Hin.
  repeat (destruct Hin as [<- | Hin];
          [intros [= <-];
           first
             [ left; split; [discriminate | reflexivity]
             | right; split; [reflexivity |];
               eexists; exists ""; eexists;
               repeat (split; [reflexivity |]); left; split; reflexivity
             | right; split; [reflexivity |];
               eexists; exists "load"; eexists;
               repeat (split; [reflexivity |]); right; split; reflexivity ]
          |]).
  destruct Hin.
Qed.

Lemma got_files_follow_the_constituents_witness :
  model_format (select_model "/data" "GOT4.8_load") = Some "GOT"
  /\ model_files (select_model "/data" "GOT4.8_load")
     = Some ["q1load.d.gz"; "o1load.d.gz"; "p1load.d.gz"; "k1load.d.gz";
             "n2load.d.gz"; "m2load.d.gz"; "s2load.d.gz"; "k2load.d.gz";
             "s1load.d.gz"; "m4load.d.gz"].
Proof.
  split; [reflexivity |].
  destruct (got_files_follow_the_constituents "/data" "GOT4.8_load" "GOT"
              eq_refl)
    as [[Hne _] | (_ & cs & kind & scale & _ & _ & Hfiles & _)];
    [now elim Hne |].
  cbn in Hfiles |- *. reflexivity.
Defined.

(** ** The data directory *)

Lemma append_assoc (s1 s2 s3 : string) : (s1 ++ s2) ++ s3 = s1 ++ s2 ++ s3.
Proof. induction s1 as [| ch s1 IH]; simpl; [reflexivity | now rewrite IH]. Qed.

Lemma endswith_sep_slash (d : string) : PosixPath.endswith_sep (d ++ "/") = true.
Proof.
  induction d as [| ch d IH]; [reflexivity |].
  cbn [append PosixPath.endswith_sep]. destruct (d ++ "/") eqn:Hd; [| exact IH].
  now destruct d.
Qed.

Lemma join_trailing_sep (d b : string) (p : list string) :
  negb (String.length d =? 0)%nat = true ->
  PosixPath.endswith_sep d = false ->
  PosixPath.join (d ++ "/") (b :: p) = PosixPath.join d (b :: p).
Proof.
  intros Hne Hend. unfold PosixPath.join. cbn [fold_left]. f_equal.
  unfold PosixPath.join2. rewrite endswith_sep_slash, Hend, orb_true_r.
  apply negb_true_iff in Hne. rewrite Hne. cbn [orb].
  destruct (PosixPath.startswith_sep b); [reflexivity |].
  now rewrite append_assoc.
Qed.

(** X15. A slash at the end of the data directory changes nothing: for a
    directory that is not empty and does not end with a slash already,
    the run with the directory followed by a slash is the run with the
    directory: same files handed to the extractor and to
    [calc_delta_time], same calls, same output. *)
Theorem trailing_slash_of_the_data_directory
    E tide_dir input_file output_file TIDE_MODEL MODE :
  negb (String.length tide_dir =? 0)%nat = true ->
  PosixPath.endswith_sep tide_dir = false ->
  compute_tidal_elevations E (tide_dir ++ "/") input_file output_file
    TIDE_MODEL MODE
  = compute_tidal_elevations E tide_dir input_file output_file TIDE_MODEL MODE.
Proof.
  intros Hne Hend.
  unfold compute_tidal_elevations, read_constants, select_model.
  now rewrite !(join_trailing_sep tide_dir _ _ Hne Hend).
Qed.

Lemma trailing_slash_of_the_data_directory_witness :
  PosixPath.endswith_sep "/data" = false
  /\ compute_tidal_elevations Toy.env "/data/" "two.csv" "out.csv" "GOT4.7"
       509
     = compute_tidal_elevations Toy.env "/data" "two.csv" "out.csv" "GOT4.7"
         509.
Proof.
  split; [reflexivity |].
  exact (trailing_slash_of_the_data_directory Toy.env "/data" "two.csv"
           "out.csv" "GOT4.7" 509%Z eq_refl eq_refl).
Defined.

(** ** The order of the stages *)

Lemma read_constants_stages E tide_dir dinput L fmt :
  In (map stage (snd (read_constants E tide_dir dinput L fmt [])))
    [[]; [2]; [2; 3]].
Proof.
  unfold read_constants. cbv [str_in existsb].
  destruct (fmt =? "OTIS"); [| destruct (fmt =? "ATLAS");
    [| destruct (fmt =? "netcdf"); [| destruct (fmt =? "GOT")]]];
    cbn [orb];
    unfold bind, call, local, ret, raise, snoc;
    repeat match goal with
      | |- context [match ?x with _ => _ end] =>
          lazymatch x with
          | context [match _ with _ => _ end] => fail
          | _ => destruct x
          end
      end;
    cbn; tauto.
Qed.

(** X16. Every run of [compute_tidal_elevations] goes through its stages
    in one order and through each of them once at most: the input is
    read, then one extractor is called, then [calc_delta_time], then the
    synthesizer, then the inference, then the output file is opened,
    written line after line, closed, and its mode changed.  A run that
    fails stops where it is; and the function prints nothing. *)
Theorem stages_come_in_order
    E tide_dir input_file output_file TIDE_MODEL MODE :
  in_order 0
    (map stage
       (snd (compute_tidal_elevations E tide_dir input_file output_file
               TIDE_MODEL MODE [])))
  = true.
Proof.
  rewrite compute_stops. cbv zeta.
  destruct (read_rows E input_file) as [rows | e]; [| reflexivity].
  destruct (model_format _) as [fmt |]; [| reflexivity].
  pose proof (read_constants_stages E tide_dir (squeeze rows)
                (select_model tide_dir TIDE_MODEL) fmt) as H1.
  destruct (read_constants _ _ _ _ _ []) as [[k | e] evs1]; cbn [snd] in *;
    cbn [map stage]; destruct H1 as [<- | [<- | [<- | []]]]; reflexivity.
Qed.

(** ** Where the model is read *)

Lemma prefix_append (d s : string) : String.prefix d (d ++ s) = true.
Proof.
  induction d as [| ch d IH]; [now destruct s |]. cbn.
  destruct (ascii_dec ch ch) as [_ | Hne]; [exact IH | now elim Hne].
Qed.

(** Joining components that are not absolute keeps the first one in
    front. *)
Lemma join_relative (p : list string) :
  Forall (fun b => PosixPath.startswith_sep b = false) p ->
  forall d, exists suffix, PosixPath.join d p = d ++ suffix.
Proof.
  unfold PosixPath.join.
  induction 1 as [| b p Hb _ IH]; intros d; cbn [fold_left].
  - exists EmptyString. induction d as [| ch d IHd]; [reflexivity |].
    cbn. now rewrite <- IHd.
  - unfold PosixPath.join2 at 2. rewrite Hb.
    destruct ((String.length d =? 0)%nat || PosixPath.endswith_sep d).
    + destruct (IH (d ++ b)) as [s ->]. exists (b ++ s).
      apply append_assoc.
    + destruct (IH (d ++ String PosixPath.sep b)) as [s ->].
      exists (String PosixPath.sep b ++ s). apply append_assoc.
Qed.

Lemma join_relative_prefix d (p : list string) :
  Forall (fun b => PosixPath.startswith_sep b = false) p ->
  String.prefix d (PosixPath.join d p) = true.
Proof.
  intros H. destruct (join_relative p H d) as [s ->]. apply prefix_append.
Qed.

(** The paths the chain binds are the data directory joined with
    components that are not absolute; the grid file of the netcdf model
    apart, which is a bare file name. *)
Lemma select_model_paths tide_dir TIDE_MODEL :
  let L := select_model tide_dir TIDE_MODEL in
  let below (v : option string) :=
    forall p, v = Some p -> String.prefix tide_dir p = true in
  below (model_file L) /\ below (model_directory L)
  /\ (model_format L <> Some "netcdf" -> below (grid_file L)).
Proof.
  cbv zeta.
  destruct (in_dec string_dec TIDE_MODEL catalogue) as [Hin | Hnot].
  2: { rewrite (select_model_unknown _ _ Hnot).
       repeat split; intros; discriminate. }
  simpl in Hin.
  repeat (destruct Hin as [<- | Hin];
          [split; [| split; [| intros Hne]];
           intros p Hp;
           lazy beta iota zeta
             delta [select_model String.eqb Ascii.eqb Bool.eqb gridded got
                    model_file model_directory grid_file model_format]
             in Hp;
           first [ discriminate Hp
                 | now elim Hne
                 | match type of Hp with
                   | Some ?x = Some _ =>
                       assert (Hx : x = p) by congruence; rewrite <- Hx
                   end;
                   apply join_relative_prefix; repeat constructor ] |]).
  destruct Hin.
Qed.

(** X17. The model is read in the data directory only.  In every run,
    the grid file and the model file of an OTIS or ATLAS model, the
    directory of the files of a netcdf or GOT model and the delta-time
    table are paths that start with [tide_dir]: the driver joins
    [tide_dir] with names that are not absolute, and with nothing else. *)
Theorem model_is_read_in_the_data_directory
    E tide_dir input_file output_file TIDE_MODEL MODE :
  Forall (fun p => String.prefix tide_dir p = true)
    (model_paths
       (snd (compute_tidal_elevations E tide_dir input_file output_file
               TIDE_MODEL MODE []))).
Proof.
  rewrite compute_stops. cbv zeta.
  destruct (read_rows E input_file) as [rows | e]; [| constructor].
  destruct (model_format _) as [fmt |] eqn:Hfmt; [| constructor].
  destruct (select_model_paths tide_dir TIDE_MODEL) as (Hm & Hd & Hg).
  cbv zeta in Hm, Hd, Hg.
  assert (Hdelta : String.prefix tide_dir
                     (PosixPath.join tide_dir ["deltat.data"]) = true)
    by (apply join_relative_prefix; repeat constructor).
  assert (H1 : Forall (fun p => String.prefix tide_dir p = true)
                 (model_paths
                    (snd (read_constants E tide_dir (squeeze rows)
                            (select_model tide_dir TIDE_MODEL) fmt [])))).
  { unfold read_constants. cbv [str_in existsb].
    destruct (String.eqb_spec fmt "OTIS") as [-> | HO];
      [| destruct (String.eqb_spec fmt "ATLAS") as [-> | HA];
         [| destruct (String.eqb_spec fmt "netcdf") as [-> | HN];
            [| destruct (String.eqb_spec fmt "GOT") as [-> | HG] ] ] ];
      cbn [orb];
      try (assert (Hne : model_format (select_model tide_dir TIDE_MODEL)
                         <> Some "netcdf") by (rewrite Hfmt; discriminate);
           specialize (Hg Hne));
      unfold bind, call, local, ret, raise, snoc;
      repeat match goal with
        | |- context [match ?x with _ => _ end] =>
            lazymatch x with
            | context [match _ with _ => _ end] => fail
            | _ => destruct x eqn:?
            end
        end;
      cbn; repeat constructor; auto. }
  destruct (read_constants _ _ _ _ _ []) as [[k | e] evs1]; cbn [snd] in *;
    exact H1.
Qed.
